(** * voice-agent-tester: the scenario execution engine

    A shallow embedding of the two entry points of the repository,

    - [src/main.py] (module [Main] below): one scenario read from a flat
      configuration, steps given as YAML mappings;
    - [src/voice_agent_tester/__main.py] (module [Package] below): several
      scenarios, steps validated by pydantic models;

    over a small runtime in which the browser is an adversary: every call
    into the browser asks an oracle whether it raises and how long it took.
    A run produces the ordered list of everything the program did that is
    visible from outside (browser calls, sleeps, printed lines).

    Conventions.  Time is counted in whole milliseconds; [time.time()]
    reads the clock, a sleep of [d] moves it by [d] plus what the oracle
    adds, and a browser call moves it by what the oracle says.  An
    exception is its class and message; [except Exception] catches all of
    them (cancellation and interrupts are not modelled).  A printed line is
    a constructor standing for the [print] statement that produces it,
    with the values formatted into it as arguments. *)

From Stdlib Require Import ZArith Ascii String List Lia.
From stdpp Require Import base option list strings gmap.

Local Open Scope string_scope.
Local Open Scope Z_scope.
Local Open Scope list_scope.

(** ** Runtime: exceptions, the browser oracle, the clock, the trace *)

(** Python exceptions, by class.  The two entry points only ever
    distinguish [FileNotFoundError] and pydantic's [ValidationError] from
    the rest; whatever the browser driver raises is an [OtherError] with
    its class name. *)
Inductive exn_class :=
| FileNotFoundError
| ValidationError
| ValueError
| OtherError (name : string).

Record exn := { cls : exn_class; msg : string }.

(** What the outside world does at one call: whether the call raises, and
    how many milliseconds went by on top of what the call asked for. *)
Record outcome := { failure : option exn; took : N }.

Definition calm : outcome := {| failure := None; took := 0 |}.

(** The state threaded through a run: the outcomes still to come, one per
    call, and the wall clock in milliseconds. *)
Record world := { oracle : list outcome; clock : Z }.

Definition next_outcome (w : world) : outcome :=
  match oracle w with
  | [] => calm
  | o :: _ => o
  end.

Definition advance (w : world) (ms : Z) : world :=
  {| oracle := tail (oracle w); clock := clock w + ms |}.

Inductive result (A : Type) :=
| Ok (a : A)
| Raise (e : exn).
Arguments Ok {A} a.
Arguments Raise {A} e.

Section Runtime.
(** [L] is the type of printed lines; each entry point has its own. *)
Context {L : Type}.

Inductive event :=
| Print (line : L)
| Launch (headless : bool) (flags : list string)
| NewPage
| OnConsole
| Goto (url : string)
| AddScriptTag (path : string)
| Evaluate (script : string)
| Click (selector : string)
| WaitForSelector (selector : string)
| Sleep (ms : Z)
| Close.

Definition M (A : Type) : Type := world -> result A * list event * world.

Definition ret {A} (a : A) : M A := fun w => (Ok a, [], w).

Definition bind {A B} (m : M A) (k : A -> M B) : M B := fun w =>
  match m w with
  | (Ok a, t, w') =>
      match k a w' with
      | (r, t', w'') => (r, t ++ t', w'')
      end
  | (Raise e, t, w') => (Raise e, t, w')
  end.

(** [try: m except Exception as e: h e] *)
Definition try_except {A} (m : M A) (h : exn -> M A) : M A := fun w =>
  match m w with
  | (Ok a, t, w') => (Ok a, t, w')
  | (Raise e, t, w') =>
      match h e w' with
      | (r, t', w'') => (r, t ++ t', w'')
      end
  end.

(** [try: m finally: f]: [f] runs on both exits; when [f] itself raises,
    that exception replaces the outcome of [m]. *)
Definition try_finally {A} (m : M A) (f : M unit) : M A := fun w =>
  match m w with
  | (r, t, w') =>
      match f w' with
      | (Ok _, t', w'') => (r, t ++ t', w'')
      | (Raise e, t', w'') => (Raise e, t ++ t', w'')
      end
  end.

Definition raise {A} (e : exn) : M A := fun w => (Raise e, [], w).

Definition print (line : L) : M unit := fun w => (Ok tt, [Print line], w).

(** [time.time()], in milliseconds. *)
Definition now : M Z := fun w => (Ok (clock w), [], w).

(** A call into the browser: it is recorded, takes the time the oracle
    says, and raises when the oracle says so. *)
Definition call (e : event) : M unit := fun w =>
  let o := next_outcome w in
  let w' := advance w (Z.of_N (took o)) in
  match failure o with
  | None => (Ok tt, [e], w')
  | Some x => (Raise x, [e], w')
  end.

(** Registering a console listener is local to the driver: recorded,
    never failing, taking no time. *)
Definition on_console : M unit := fun w => (Ok tt, [OnConsole], w).

(** [asyncio.sleep(ms / 1000)] and a successful [time.sleep]: never
    raises, and at least [ms] milliseconds go by. *)
Definition sleep (ms : Z) : M unit := fun w =>
  (Ok tt, [Sleep ms], advance w (ms + Z.of_N (took (next_outcome w)))).

(** [for x in xs: body x] *)
Fixpoint for_each {A} (xs : list A) (body : A -> M unit) : M unit :=
  match xs with
  | [] => ret tt
  | x :: xs' => bind (body x) (fun _ => for_each xs' body)
  end.
End Runtime.

Arguments event : clear implicits.
Arguments M : clear implicits.

Declare Scope py_scope.
Delimit Scope py_scope with py.
Notation "x <- m ;; k" := (bind m (fun x => k))
  (at level 100, m at next level, right associativity) : py_scope.
Notation "m ;; k" := (bind m (fun _ => k))
  (at level 100, right associativity) : py_scope.

(** The next [n] calls do not raise. *)
Fixpoint quiet (n : nat) (os : list outcome) : Prop :=
  match n, os with
  | O, _ => True
  | S _, [] => True
  | S n', o :: os' => failure o = None /\ quiet n' os'
  end.

(** [enumerate(xs, start)] *)
Fixpoint enumerate {A} (start : nat) (xs : list A) : list (nat * A) :=
  match xs with
  | [] => []
  | x :: xs' => (start, x) :: enumerate (S start) xs'
  end.

(** Python truthiness of an optional string: [None] and the empty string
    are false. *)
Definition truthy (v : option string) : option string :=
  match v with
  | Some s => if String.eqb s EmptyString then None else Some s
  | None => None
  end.

(** [a == s] for a value that may be [None]. *)
Definition is_str (a : option string) (s : string) : bool :=
  match a with
  | Some x => String.eqb x s
  | None => false
  end.

(** A browser that never raises: no outcome still to come is a failure. *)
Definition never_raises (w : world) : Prop :=
  Forall (fun o => failure o = None) (oracle w).

(** Trace projections used to state the properties. *)
Section Projections.
Context {L : Type}.

(** The three components of a run. *)
Definition trace {A} (x : result A * list (event L) * world) : list (event L) :=
  snd (fst x).

Definition outcome_of {A} (x : result A * list (event L) * world) : result A :=
  fst (fst x).

Definition final {A} (x : result A * list (event L) * world) : world :=
  snd x.

(** Every event of every run of [m] satisfies [P]. *)
Definition emits_only (P : event L -> Prop) {A} (m : M L A) : Prop :=
  forall w, Forall P (trace (m w)).

Definition is_close (e : event L) : bool :=
  match e with Close => true | _ => false end.

Definition closes (t : list (event L)) : nat :=
  length (filter (fun e => is_close e = true) t).

Definition is_launch (e : event L) : bool :=
  match e with Launch _ _ => true | _ => false end.

Definition launches (t : list (event L)) : nat :=
  length (filter (fun e => is_launch e = true) t).

(** [m] leaves a browser that never raises as one that never raises. *)
Definition tame {A} (m : M L A) : Prop :=
  forall w, never_raises w -> never_raises (final (m w)).

(** On a browser that never raises, [m] returns and leaves it so. *)
Definition steady {A} (m : M L A) : Prop :=
  forall w, never_raises w ->
    (exists a, outcome_of (m w) = Ok a) /\ never_raises (final (m w)).

Fixpoint evaluated (t : list (event L)) : list string :=
  match t with
  | [] => []
  | Evaluate s :: t' => s :: evaluated t'
  | _ :: t' => evaluated t'
  end.

Fixpoint script_tags (t : list (event L)) : list string :=
  match t with
  | [] => []
  | AddScriptTag p :: t' => p :: script_tags t'
  | _ :: t' => script_tags t'
  end.

End Projections.

(** ** [src/main.py] *)
Module Main.

(** A step is the YAML mapping as loaded: a dict from keys to scalars
    (taken as strings; [step.get(k)] is the lookup). *)
Abbreviation step := (gmap string string).

(** One constructor per [print] of the file. *)
Inductive log :=
| Injected (basename : string)
| ErrorInjecting (js_file : string) (e : exn)
| ClickingElement (element : string)
| ErrorClicking (element : string) (e : exn)
| NoElementForClick
| WaitingForVoice
| WaitingForSilence
| WaitingForElement (element : string)
| NoElementForWait
| Speaking (text : string)
| UnknownAction (action : option string)
| ElapsedTime (ms : Z)
| ExecutingStep (i : nat) (st : step)
| ErrorRunningScenario (e : exn).

(** The lines that report an error. *)
Definition is_error (l : log) : bool :=
  match l with
  | ErrorInjecting _ _ | ErrorClicking _ _ | NoElementForClick
  | NoElementForWait | ErrorRunningScenario _ => true
  | _ => false
  end.

(** The module-level settings the functions read: [headless] from the
    configuration and [args.verbose] from the command line. *)
Record settings := { headless : bool; verbose : bool }.

Definition launch_flags : list string :=
  [ "--no-sandbox";
    "--disable-setuid-sandbox";
    "--use-fake-ui-for-media-stream";
    "--autoplay-policy=no-user-gesture-required";
    "--disable-web-security";
    "--allow-running-insecure-content";
    "--no-first-run";
    "--no-default-browser-check" ].

(** [os.path.basename]: what follows the last slash. *)
Fixpoint basename (p : string) : string :=
  match p with
  | EmptyString => EmptyString
  | String c p' =>
      if Ascii.eqb c "/"%char then basename p'
      else match index 0 "/" p' with
           | Some _ => basename p'
           | None => p
           end
  end.

Definition dquote : string := String (Ascii.ascii_of_nat 34) EmptyString.

(** The f-string handed to [page.evaluate] by the speak handler: the
    text is spliced between the quotes as it is. *)
Definition speak_script (text : string) : string :=
  "speechSynthesis.speak(new SpeechSynthesisUtterance(" +:+ dquote
    +:+ text +:+ dquote +:+ "))".

(** Durations of the fixed sleeps, in milliseconds: [asyncio.sleep(0.5)]
    after a click, [asyncio.sleep(1000)] for the voice and the silence
    windows (the comments next to them say three seconds),
    [asyncio.sleep(10)] after speech, [asyncio.sleep(5)] before closing. *)
Definition click_settle : Z := 500.
Definition voice_window : Z := 1000 * 1000.
Definition silence_window : Z := 1000 * 1000.
Definition speech_wait : Z := 10 * 1000.
Definition final_wait : Z := 5 * 1000.

(** The action kinds [execute_step] has a branch for. *)
Definition known_kinds : list string :=
  ["click"; "wait_for_voice"; "wait_for_silence"; "wait"; "speak"].

Local Open Scope py_scope.

(** [inject_javascript_files]: [js_files] is what [glob.glob] returned
    for the javascript folder, in the order it returned it. *)
Definition inject_javascript_files (js_files : list string) : M log unit :=
  for_each js_files (fun js_file =>
    try_except
      (call (AddScriptTag js_file) ;;
       print (Injected (basename js_file)))
      (fun e => print (ErrorInjecting js_file e))).

Definition execute_step (st : step) : M log unit :=
  let action := st !! "action" in
  begin_time <- now ;;
  (if is_str action "click" then
     match truthy (st !! "element") with
     | Some element =>
         print (ClickingElement element) ;;
         try_except
           (call (Click element) ;;
            sleep click_settle)
           (fun e => print (ErrorClicking element e))
     | None => print NoElementForClick
     end
   else if is_str action "wait_for_voice" then
     print WaitingForVoice ;;
     sleep voice_window
   else if is_str action "wait_for_silence" then
     print WaitingForSilence ;;
     sleep silence_window
   else if is_str action "wait" then
     match truthy (st !! "element") with
     | Some element =>
         print (WaitingForElement element) ;;
         call (WaitForSelector element)
     | None => print NoElementForWait
     end
   else if is_str action "speak" then
     match truthy (st !! "text") with
     | Some text =>
         print (Speaking text) ;;
         call (Evaluate (speak_script text)) ;;
         sleep speech_wait
     | None => ret tt
     end
   else
     print (UnknownAction action)) ;;
  end_time <- now ;;
  print (ElapsedTime (end_time - begin_time)).

(** The loop of [run_scenario] over [enumerate(steps, 1)]. *)
Definition run_steps (numbered : list (nat * step)) : M log unit :=
  for_each numbered (fun '(i, st) =>
    print (ExecutingStep i st) ;;
    execute_step st).

(** The steps a trace shows as handed to [execute_step], in order. *)
Fixpoint dispatched (t : list (event log)) : list (nat * step) :=
  match t with
  | [] => []
  | Print (ExecutingStep i st) :: t' => (i, st) :: dispatched t'
  | _ :: t' => dispatched t'
  end.

(** What [inject_javascript_files] leaves in the trace for a listing,
    given the outcomes of its [addScriptTag] calls in order: per file the
    call and one line, the injected base name or the error. *)
Fixpoint injection_events (js_files : list string) (os : list outcome)
    : list (event log) :=
  match js_files with
  | [] => []
  | js_file :: rest =>
      [AddScriptTag js_file;
       Print (match failure (hd calm os) with
              | Some e => ErrorInjecting js_file e
              | None => Injected (basename js_file)
              end)]
        ++ injection_events rest (tail os)
  end.

(** How the page reads the script of the speak handler (the page is not
    part of the repository; this follows the ECMAScript grammar).  Inside
    a string literal in double quotes, every character other than the
    double quote, the backslash, the line feed and the carriage return
    stands for itself, and the first double quote ends the literal. *)
Definition js_plain_char (c : ascii) : bool :=
  negb (Ascii.eqb c (Ascii.ascii_of_nat 34)
        || Ascii.eqb c (Ascii.ascii_of_nat 92)
        || Ascii.eqb c (Ascii.ascii_of_nat 10)
        || Ascii.eqb c (Ascii.ascii_of_nat 13)).

(** A text that needs no escaping inside such a literal. *)
Fixpoint js_plain (s : string) : bool :=
  match s with
  | EmptyString => true
  | String c s' => js_plain_char c && js_plain s'
  end.

(** Reads a literal without escapes off the front of [s], past its
    opening quote: its characters, and what follows the closing quote. *)
Fixpoint read_plain_literal (s : string) : option (string * string) :=
  match s with
  | EmptyString => None
  | String c s' =>
      if Ascii.eqb c (Ascii.ascii_of_nat 34) then Some (EmptyString, s')
      else if js_plain_char c then
        match read_plain_literal s' with
        | Some (body, rest) => Some (String c body, rest)
        | None => None
        end
      else None
  end.

Fixpoint strip_prefix (p s : string) : option string :=
  match p, s with
  | EmptyString, _ => Some s
  | String a p', String b s' =>
      if Ascii.eqb a b then strip_prefix p' s' else None
  | String _ _, EmptyString => None
  end.

(** The text a script hands to speech synthesis, when the script is the
    one call of the speak handler on a literal without escapes. *)
Definition spoken (script : string) : option string :=
  match strip_prefix
          ("speechSynthesis.speak(new SpeechSynthesisUtterance(" +:+ dquote)
          script with
  | Some after_quote =>
      match read_plain_literal after_quote with
      | Some (text, rest) =>
          if String.eqb rest "))" then Some text else None
      | None => None
      end
  | None => None
  end.

(** The elapsed times a trace reports, in order. *)
Fixpoint elapsed_lines (t : list (event log)) : list Z :=
  match t with
  | [] => []
  | Print (ElapsedTime ms) :: t' => ms :: elapsed_lines t'
  | _ :: t' => elapsed_lines t'
  end.

Definition run_scenario (cfg : settings) (js_files : list string)
    (url : string) (steps : list step) : M log unit :=
  try_except
    (call (Launch (headless cfg) launch_flags) ;;
     call NewPage ;;
     (if verbose cfg then on_console else ret tt) ;;
     call (Goto url) ;;
     inject_javascript_files js_files ;;
     run_steps (enumerate 1 steps) ;;
     sleep final_wait ;;
     call Close)
    (fun e => print (ErrorRunningScenario e)).

End Main.

(** ** [src/voice_agent_tester/__main.py] *)
Module Package.

(** [value: Union[str, int]] *)
Inductive scalar :=
| Str (s : string)
| Int (n : Z).

Record Step := { action : string; value : scalar }.

Record Scenario := {
  name : string;
  url : string;
  javascript_file : string;
  steps : list Step
}.

Record Config := { scenarios : list Scenario }.

(** One constructor per [print] of the file (the console forwarder
    [handle_console_log] prints what the page says and is not part of a
    run's own output). *)
Inductive log :=
| RunningScenario (name : string)
| NavigatingTo (url : string)
| InjectingAudioOutputHooks
| AudioOutputHooksNotFound (path : string)
| InjectingAudioInputHooks
| AudioInputHooksNotFound (path : string)
| InjectingJavaScript (javascript_file : string)
| JavaScriptFileNotFound (path : string)
| ExecutingStep (action : string) (value : scalar)
| SimulatingVoiceInput (value : scalar)
| UnknownAction (action : string)
| ScenarioError (e : exn)
| LoadingConfiguration (config_file : string)
| ConfigFileNotFound (config_file : string)
| InvalidConfiguration (e : exn)
| UnexpectedError (e : exn).

(** [os.path.join] on POSIX paths. *)
Fixpoint ends_with_slash (p : string) : bool :=
  match p with
  | EmptyString => false
  | String c EmptyString => Ascii.eqb c "/"%char
  | String _ p' => ends_with_slash p'
  end.

Definition join2 (path b : string) : string :=
  if String.prefix "/" b then b
  else if String.eqb path EmptyString || ends_with_slash path then path +:+ b
  else path +:+ "/" +:+ b.

Definition path_join (a : string) (ps : list string) : string :=
  fold_left join2 ps a.

(** What the configuration loading of [run] came to: [open],
    [yaml.safe_load] and the pydantic validation either give a [Config] or
    raise. *)
Inductive loaded :=
| Loaded (c : Config)
| LoadRaised (e : exn).

(** What is at a path that exists: a text, which [open(path).read()]
    returns, or something that reading raises on (a directory, a file
    without permission, bytes that do not decode). *)
Inductive entry :=
| Text (content : string)
| Unreadable (e : exn).

(** The largest number of seconds [time.sleep] can convert: it counts
    nanoseconds in a signed 64-bit integer. *)
Definition sleep_limit : Z := Z.quot (2 ^ 63 - 1) (10 ^ 9).

Section Host.
(** The host the program runs on: the directory of [__file__], what is
    at each path (a path that is not there reads as [None]), and Python's
    [int] on strings ([None] when it raises [ValueError]). *)
Variable here : string.
Variable fs : string -> option entry.
Variable py_int : string -> option Z.

Local Open Scope py_scope.

Definition audio_hooks_path : string :=
  path_join here ["javascript"; "audio_output_hooks.js"].

Definition audio_input_hooks_path : string :=
  path_join here ["javascript"; "audio_input_hooks.js"].

Definition js_file_path (sc : Scenario) : string :=
  path_join here [".."; "scenarios"; javascript_file sc].

(** [os.path.exists(path)] *)
Definition path_exists (path : string) : bool :=
  match fs path with
  | Some _ => true
  | None => false
  end.

(** [with open(path, 'r') as f: f.read()] *)
Definition read_text (path : string) : M log string :=
  match fs path with
  | Some (Text content) => ret content
  | Some (Unreadable e) => raise e
  | None => raise {| cls := FileNotFoundError; msg := path |}
  end.

(** The block repeated three times in [run_scenario]: when the path
    exists, read it, announce it and evaluate its text in the page;
    otherwise print the warning. *)
Definition inject_asset (path : string) (announce warning : log)
    : M log unit :=
  if path_exists path then
    content <- read_text path ;;
    print announce ;;
    call (Evaluate content)
  else print warning.

(** Reading [path] does not raise: it is not there, or it holds a text. *)
Definition readable (path : string) : Prop :=
  forall e, fs path <> Some (Unreadable e).

(** What handling one asset leaves in the trace when neither reading it
    nor evaluating it raises. *)
Definition asset_events (path : string) (announce warning : log)
    : list (event log) :=
  match fs path with
  | Some (Text content) => [Print announce; Evaluate content]
  | Some (Unreadable _) => []
  | None => [Print warning]
  end.

(** The texts of the assets that are there, in the order given. *)
Definition asset_texts (paths : list string) : list string :=
  omap (fun path => match fs path with
                    | Some (Text content) => Some content
                    | _ => None
                    end) paths.

(** [int(step.value)] *)
Definition int_of (v : scalar) : M log Z :=
  match v with
  | Int n => ret n
  | Str s =>
      match py_int s with
      | Some n => ret n
      | None =>
          raise {| cls := ValueError;
                   msg := "invalid literal for int() with base 10" |}
      end
  end.

(** The sleep itself, once [time.sleep] has accepted its argument: the
    operating system may still refuse it, and otherwise at least [ms]
    milliseconds go by. *)
Definition os_sleep (ms : Z) : M log unit := fun w =>
  let o := next_outcome w in
  match failure o with
  | Some x => (Raise x, [Sleep ms], advance w (Z.of_N (took o)))
  | None => (Ok tt, [Sleep ms], advance w (ms + Z.of_N (took o)))
  end.

(** [time.sleep(secs)] on an integer: the conversion to nanoseconds comes
    first and overflows beyond [sleep_limit] in either direction, then a
    negative length is refused, then the process sleeps. *)
Definition time_sleep (secs : Z) : M log unit :=
  if (secs <? - sleep_limit) || (sleep_limit <? secs) then
    raise {| cls := OtherError "OverflowError";
             msg := "timestamp too large to convert to C _PyTime_t" |}
  else if secs <? 0 then
    raise {| cls := ValueError; msg := "sleep length must be non-negative" |}
  else os_sleep (secs * 1000).

(** The body of the loop over [scenario.steps]. *)
Definition run_step (st : Step) : M log unit :=
  print (ExecutingStep (action st) (value st)) ;;
  if String.eqb (action st) "wait" then
    secs <- int_of (value st) ;;
    time_sleep secs
  else if String.eqb (action st) "say" then
    print (SimulatingVoiceInput (value st))
  else
    print (UnknownAction (action st)).

(** The steps a trace shows as entered by the loop, in order. *)
Fixpoint dispatched (t : list (event log)) : list Step :=
  match t with
  | [] => []
  | Print (ExecutingStep a v) :: t' =>
      {| action := a; value := v |} :: dispatched t'
  | _ :: t' => dispatched t'
  end.

(** Everything inside the [try] of [run_scenario]. *)
Definition scenario_body (sc : Scenario) : M log unit :=
  print (NavigatingTo (url sc)) ;;
  call (Goto (url sc)) ;;
  inject_asset audio_hooks_path
    InjectingAudioOutputHooks (AudioOutputHooksNotFound audio_hooks_path) ;;
  inject_asset audio_input_hooks_path
    InjectingAudioInputHooks (AudioInputHooksNotFound audio_input_hooks_path) ;;
  inject_asset (js_file_path sc)
    (InjectingJavaScript (javascript_file sc))
    (JavaScriptFileNotFound (js_file_path sc)) ;;
  for_each (steps sc) run_step.

Definition run_scenario (sc : Scenario) : M log unit :=
  print (RunningScenario (name sc)) ;;
  call (Launch false []) ;;
  call NewPage ;;
  on_console ;;
  try_finally
    (try_except (scenario_body sc) (fun e => print (ScenarioError e)))
    (call Close).

(** The line printed by the [except] clauses of [run], tried in order on
    the class of what was raised. *)
Definition failure_line (config_file : string) (e : exn) : log :=
  match cls e with
  | FileNotFoundError => ConfigFileNotFound config_file
  | ValidationError => InvalidConfiguration e
  | _ => UnexpectedError e
  end.

Definition run (config_file : string) (ld : loaded) : M log unit :=
  print (LoadingConfiguration config_file) ;;
  try_except
    (match ld with
     | LoadRaised e => raise e
     | Loaded config => for_each (scenarios config) run_scenario
     end)
    (fun e => print (failure_line config_file e)).

End Host.
End Package.

(** ** Concrete hosts, scenarios and browser behaviours *)
Module Sample.

Definition timeout : exn :=
  {| cls := OtherError "TimeoutError";
     msg := "Waiting for selector failed: timeout 30000ms exceeds." |}.

Definition no_browser : exn :=
  {| cls := OtherError "BrowserError"; msg := "Browser closed unexpectedly" |}.

Definition raises (e : exn) (ms : N) : outcome :=
  {| failure := Some e; took := ms |}.

Definition passes (ms : N) : outcome := {| failure := None; took := ms |}.

Definition starting (os : list outcome) : world :=
  {| oracle := os; clock := 0 |}.

(** Steps of a flat configuration for [src/main.py]. *)
Definition wait_agent : Main.step :=
  {[ "action" := "wait"; "element" := "#agent" ]}.

Definition click_start : Main.step :=
  {[ "action" := "click"; "element" := "#start" ]}.

Definition speak_hello : Main.step :=
  {[ "action" := "speak"; "text" := "hello" ]}.

Definition speak_nothing : Main.step := {[ "action" := "speak" ]}.

Definition voice : Main.step := {[ "action" := "wait_for_voice" ]}.

Definition hover : Main.step :=
  {[ "action" := "hover"; "element" := "#menu" ]}.

Definition cfg : Main.settings :=
  {| Main.headless := true; Main.verbose := false |}.

Definition page_url : string := "http://localhost:8080/agent".

(** A javascript folder listed in alphabetical order. *)
Definition listing : list string :=
  ["/app/voice_agent_tester/javascript/audio_input_hooks.js";
   "/app/voice_agent_tester/javascript/audio_output_hooks.js"].

(** A host for the package entry point: the output hooks and the
    scenario script exist, the input hooks do not. *)
Definition pkg_dir : string := "/app/voice_agent_tester".

Definition host_fs (path : string) : option Package.entry :=
  if String.eqb path "/app/voice_agent_tester/javascript/audio_output_hooks.js"
  then Some (Package.Text "window.__audioOut = [];")
  else if String.eqb path "/app/voice_agent_tester/../scenarios/greeting.js"
  then Some (Package.Text "window.__probe = 1;")
  else None.

(** Python's [int] restricted to the one numeral the samples use. *)
Definition sample_int (s : string) : option Z :=
  if String.eqb s "2" then Some 2 else None.

Definition pkg_speak : Package.Step :=
  {| Package.action := "speak"; Package.value := Package.Str "hello" |}.

Definition pkg_say : Package.Step :=
  {| Package.action := "say"; Package.value := Package.Str "hello" |}.

Definition pkg_wait : Package.Step :=
  {| Package.action := "wait"; Package.value := Package.Int 2 |}.

Definition greeting : Package.Scenario :=
  {| Package.name := "greeting";
     Package.url := page_url;
     Package.javascript_file := "greeting.js";
     Package.steps := [pkg_wait; pkg_say] |}.

Definition farewell : Package.Scenario :=
  {| Package.name := "farewell";
     Package.url := page_url;
     Package.javascript_file := "farewell.js";
     Package.steps := [pkg_say] |}.

End Sample.

(** * Properties *)

(** ** The runtime *)

Section RuntimeFacts.
Context {L : Type}.
Implicit Types (w : world) (t : list (event L)).

Lemma bind_ok {A B} (m : M L A) (k : A -> M L B) w a t w' :
  m w = (Ok a, t, w') ->
  bind m k w = (outcome_of (k a w'), t ++ trace (k a w'), final (k a w')).
Proof.
  intros E. unfold bind. rewrite E.
  destruct (k a w') as [[r t'] w'']. reflexivity.
Qed.

Lemma bind_raise {A B} (m : M L A) (k : A -> M L B) w e t w' :
  m w = (Raise e, t, w') ->
  bind m k w = (Raise e, t, w').
Proof. intros E. unfold bind. now rewrite E. Qed.

Lemma triple_eta {A} (x : result A * list (event L) * world) :
  x = (outcome_of x, trace x, final x).
Proof. now destruct x as [[r t] w]. Qed.

(** A loop that gets through its first elements goes on with the rest. *)
Lemma for_each_app {A} (xs ys : list A) (body : A -> M L unit) w t w' :
  for_each xs body w = (Ok tt, t, w') ->
  for_each (xs ++ ys) body w =
    (outcome_of (for_each ys body w'),
     t ++ trace (for_each ys body w'),
     final (for_each ys body w')).
Proof.
  revert w t. induction xs as [|x xs IH]; intros w t E; simpl in *.
  - unfold ret in E. injection E as <- <-. simpl. apply triple_eta.
  - unfold bind in *.
    destruct (body x w) as [[[[]|e] t1] w1]; [|discriminate].
    destruct (for_each xs body w1) as [[r2 t2] w2] eqn:E2.
    injection E as -> <- ->.
    rewrite (IH _ _ E2). simpl. now rewrite app_assoc.
Qed.

(** A loop stops at the first element whose body raises. *)
Lemma for_each_raise {A} (xs ys : list A) (x : A) (body : A -> M L unit)
    w t w' e t1 w1 :
  for_each xs body w = (Ok tt, t, w') ->
  body x w' = (Raise e, t1, w1) ->
  for_each (xs ++ x :: ys) body w = (Raise e, t ++ t1, w1).
Proof.
  intros E1 E2. rewrite (for_each_app _ _ _ _ _ _ E1). simpl.
  rewrite (bind_raise _ _ _ _ _ _ E2). reflexivity.
Qed.

Lemma closes_app t1 t2 : closes (t1 ++ t2) = (closes t1 + closes t2)%nat.
Proof. unfold closes. now rewrite filter_app, length_app. Qed.

Lemma evaluated_app t1 t2 : evaluated (t1 ++ t2) = evaluated t1 ++ evaluated t2.
Proof.
  induction t1 as [|e t1 IH]; [reflexivity|].
  destruct e; simpl; now rewrite ?IH.
Qed.

Lemma script_tags_app t1 t2 :
  script_tags (t1 ++ t2) = script_tags t1 ++ script_tags t2.
Proof.
  induction t1 as [|e t1 IH]; [reflexivity|].
  destruct e; simpl; now rewrite ?IH.
Qed.

Lemma quiet_weaken (n : nat) (os : list outcome) :
  quiet (S n) os -> quiet n os.
Proof.
  revert os. induction n as [|n IH]; intros [|o os]; simpl; try tauto.
  intros [Ho Hq]. split; [exact Ho|]. apply IH. exact Hq.
Qed.

(** A call that the oracle lets through is recorded and control goes on. *)
Lemma call_bind_ok {B} (e : event L) (k : unit -> M L B) w :
  failure (next_outcome w) = None ->
  bind (call e) k w =
    let w1 := advance w (Z.of_N (took (next_outcome w))) in
    (outcome_of (k tt w1), e :: trace (k tt w1), final (k tt w1)).
Proof.
  intros Hok. unfold bind, call. rewrite Hok. simpl.
  destruct (k tt _) as [[r t] w']. reflexivity.
Qed.

Lemma call_bind_raise {B} (e : event L) (k : unit -> M L B) w x :
  failure (next_outcome w) = Some x ->
  bind (call e) k w =
    (Raise x, [e], advance w (Z.of_N (took (next_outcome w)))).
Proof. intros Hx. unfold bind, call. now rewrite Hx. Qed.

Lemma quiet_next (n : nat) w :
  quiet (S n) (oracle w) ->
  failure (next_outcome w) = None /\
  forall ms, quiet n (oracle (advance w ms)).
Proof.
  unfold next_outcome, advance. destruct (oracle w) as [|o os]; simpl.
  - intros _. split; [reflexivity|]. intros _. now destruct n.
  - intros [Ho Hq]. split; [exact Ho|]. intros _. exact Hq.
Qed.

Lemma ret_bind {A B} (a : A) (k : A -> M L B) w : bind (ret a) k w = k a w.
Proof. unfold bind, ret. now destruct (k a w) as [[r t] w']. Qed.

Lemma on_console_bind {B} (k : unit -> M L B) w :
  bind on_console k w =
    (outcome_of (k tt w), OnConsole :: trace (k tt w), final (k tt w)).
Proof.
  unfold bind, on_console. destruct (k tt w) as [[r t] w']. reflexivity.
Qed.

(** Raising or not, a call is recorded once and uses up one outcome. *)
Lemma call_trace (e : event L) w :
  final (call e w) = advance w (Z.of_N (took (next_outcome w))) /\
  trace (call e w) = [e].
Proof. unfold call. now destruct (failure (next_outcome w)). Qed.

(** The [finally] clause runs after the guarded part on every exit. *)
Lemma try_finally_trace {A} (m : M L A) (f : M L unit) w :
  trace (try_finally m f w) = trace (m w) ++ trace (f (final (m w))).
Proof.
  unfold try_finally. destruct (m w) as [[r t] w1]. simpl.
  now destruct (f w1) as [[[[]|e] t'] w2].
Qed.

Lemma print_bind {B} (l : L) (k : unit -> M L B) w :
  bind (print l) k w =
    (outcome_of (k tt w), Print l :: trace (k tt w), final (k tt w)).
Proof.
  unfold bind, print. destruct (k tt w) as [[r t] w']. reflexivity.
Qed.
Lemma closes_none t :
  Forall (fun e => is_close e = false) t -> closes t = 0%nat.
Proof.
  induction 1 as [|e t He _ IH]; [reflexivity|].
  unfold closes in *. rewrite filter_cons.
  destruct (decide (is_close e = true)) as [Hc|_]; [congruence|exact IH].
Qed.

Lemma evaluated_none t :
  Forall (fun e => forall s, e <> Evaluate s) t -> evaluated t = [].
Proof.
  induction 1 as [|e t He _ IH]; [reflexivity|].
  destruct e; simpl; try exact IH. now destruct (He script).
Qed.

Section EmitsOnly.
Variable P : event L -> Prop.

Lemma emits_only_ret {A} (a : A) : emits_only P (ret a).
Proof. intros w. constructor. Qed.

Lemma emits_only_raise {A} (e : exn) : emits_only P (raise (A := A) e).
Proof. intros w. constructor. Qed.

Lemma emits_only_now : emits_only P now.
Proof. intros w. constructor. Qed.

Lemma emits_only_print (l : L) : P (Print l) -> emits_only P (print l).
Proof. intros H w. repeat constructor. exact H. Qed.

Lemma emits_only_on_console : P OnConsole -> emits_only P on_console.
Proof. intros H w. repeat constructor. exact H. Qed.

Lemma emits_only_sleep (ms : Z) : P (Sleep ms) -> emits_only P (sleep ms).
Proof. intros H w. repeat constructor. exact H. Qed.

Lemma emits_only_call (e : event L) : P e -> emits_only P (call e).
Proof.
  intros H w. unfold call.
  destruct (failure (next_outcome w)); repeat constructor; exact H.
Qed.

Lemma emits_only_bind {A B} (m : M L A) (k : A -> M L B) :
  emits_only P m -> (forall a, emits_only P (k a)) -> emits_only P (bind m k).
Proof.
  intros Hm Hk w. unfold bind. specialize (Hm w).
  destruct (m w) as [[[a|e] t] w1]; [|exact Hm].
  specialize (Hk a w1). destruct (k a w1) as [[r t'] w2].
  apply Forall_app. split; assumption.
Qed.

Lemma emits_only_try_except {A} (m : M L A) (h : exn -> M L A) :
  emits_only P m -> (forall e, emits_only P (h e)) ->
  emits_only P (try_except m h).
Proof.
  intros Hm Hh w. unfold try_except. specialize (Hm w).
  destruct (m w) as [[[a|e] t] w1]; [exact Hm|].
  specialize (Hh e w1). destruct (h e w1) as [[r t'] w2].
  apply Forall_app. split; assumption.
Qed.

Lemma emits_only_for_each {A} (xs : list A) (body : A -> M L unit) :
  (forall x, emits_only P (body x)) -> emits_only P (for_each xs body).
Proof.
  intros Hb. induction xs as [|x xs IH]; simpl.
  - apply emits_only_ret.
  - apply emits_only_bind; [apply Hb|intros _; exact IH].
Qed.
End EmitsOnly.
End RuntimeFacts.

Create HintDb emits discriminated.
#[export] Hint Resolve emits_only_ret emits_only_raise emits_only_now
  emits_only_print emits_only_on_console emits_only_sleep emits_only_call
  emits_only_bind emits_only_try_except emits_only_for_each : emits.

(** ** Strings *)

Lemma string_append_assoc (a b c : string) :
  (a +:+ b) +:+ c = a +:+ (b +:+ c).
Proof.
  induction a as [|x a IH]; [reflexivity|].
  change (String x ((a +:+ b) +:+ c) = String x (a +:+ (b +:+ c))).
  now rewrite IH.
Qed.

(** ** [src/main.py]: single steps *)

Module MainFacts.
Import Main.

Lemma now_bind {A} (k : Z -> M log A) (w : world) :
  bind now k w = k (clock w) w.
Proof.
  unfold bind, now. destruct (k (clock w) w) as [[r t] w']. reflexivity.
Qed.

(** A step that is dispatched and returns lets the loop go on with the
    steps after it. *)
Lemma run_steps_cons_ok (i : nat) (st : step) (rest : list (nat * step))
    (w w' : world) (t : list (event log)) :
  execute_step st w = (Ok tt, t, w') ->
  run_steps ((i, st) :: rest) w =
    (outcome_of (run_steps rest w'),
     Print (ExecutingStep i st) :: t ++ trace (run_steps rest w'),
     final (run_steps rest w')).
Proof.
  intros E. unfold run_steps at 1. simpl for_each.
  fold (run_steps rest).
  rewrite (bind_ok _ _ w tt (Print (ExecutingStep i st) :: t) w').
  - reflexivity.
  - rewrite print_bind, E. reflexivity.
Qed.

(** A step whose handler raises ends the loop there. *)
Lemma run_steps_cons_raise (i : nat) (st : step) (rest : list (nat * step))
    (w w' : world) (t : list (event log)) (e : exn) :
  execute_step st w = (Raise e, t, w') ->
  run_steps ((i, st) :: rest) w =
    (Raise e, Print (ExecutingStep i st) :: t, w').
Proof.
  intros E. unfold run_steps. simpl for_each.
  apply bind_raise. rewrite print_bind, E. reflexivity.
Qed.

Lemma is_str_unknown (a : option string) (k : string) :
  (forall x, a = Some x -> ~ In x known_kinds) ->
  In k known_kinds ->
  is_str a k = false.
Proof.
  intros Hun Hk. destruct a as [x|]; [|reflexivity].
  simpl. apply String.eqb_neq. intros ->. exact (Hun k eq_refl Hk).
Qed.

Lemma truthy_absent (v : option string) :
  v = None \/ v = Some EmptyString -> truthy v = None.
Proof. now intros [-> | ->]. Qed.

Lemma truthy_present (v : option string) (s : string) :
  v = Some s -> s <> EmptyString -> truthy v = Some s.
Proof.
  intros -> Hne. simpl. apply String.eqb_neq in Hne. now rewrite Hne.
Qed.

(** Unfolds one step down to the oracle's answer. *)
Ltac step_eval Hact :=
  unfold execute_step; rewrite Hact; rewrite now_bind;
  cbn [is_str String.eqb Ascii.eqb Bool.eqb];
  unfold bind, try_except, call, sleep, print, now, ret.

Ltac same_run := cbn; repeat f_equal; lia.

(** What [execute_step] does, branch by branch. *)
Lemma execute_step_click (st : step) (element : string) (w : world) :
  st !! "action" = Some "click" ->
  truthy (st !! "element") = Some element ->
  execute_step st w =
    let o := next_outcome w in
    let w1 := advance w (Z.of_N (took o)) in
    match failure o with
    | Some e =>
        (Ok tt,
         [Print (ClickingElement element); Click element;
          Print (ErrorClicking element e);
          Print (ElapsedTime (Z.of_N (took o)))],
         w1)
    | None =>
        let o' := next_outcome w1 in
        (Ok tt,
         [Print (ClickingElement element); Click element;
          Sleep click_settle;
          Print (ElapsedTime
                   (Z.of_N (took o) + click_settle + Z.of_N (took o')))],
         advance w1 (click_settle + Z.of_N (took o')))
    end.
Proof.
  intros Hact Helt. step_eval Hact. rewrite Helt.
  destruct (failure (next_outcome w)) as [e|]; same_run.
Qed.

Lemma execute_step_click_no_element (st : step) (w : world) :
  st !! "action" = Some "click" ->
  truthy (st !! "element") = None ->
  execute_step st w =
    (Ok tt, [Print NoElementForClick; Print (ElapsedTime 0)], w).
Proof. intros Hact Helt. step_eval Hact. rewrite Helt. same_run. Qed.

Lemma execute_step_wait_for_voice (st : step) (w : world) :
  st !! "action" = Some "wait_for_voice" ->
  execute_step st w =
    let late := Z.of_N (took (next_outcome w)) in
    (Ok tt,
     [Print WaitingForVoice; Sleep voice_window;
      Print (ElapsedTime (voice_window + late))],
     advance w (voice_window + late)).
Proof. intros Hact. step_eval Hact. same_run. Qed.

Lemma execute_step_wait_for_silence (st : step) (w : world) :
  st !! "action" = Some "wait_for_silence" ->
  execute_step st w =
    let late := Z.of_N (took (next_outcome w)) in
    (Ok tt,
     [Print WaitingForSilence; Sleep silence_window;
      Print (ElapsedTime (silence_window + late))],
     advance w (silence_window + late)).
Proof. intros Hact. step_eval Hact. same_run. Qed.

Lemma execute_step_wait (st : step) (element : string) (w : world) :
  st !! "action" = Some "wait" ->
  truthy (st !! "element") = Some element ->
  execute_step st w =
    let o := next_outcome w in
    let w1 := advance w (Z.of_N (took o)) in
    match failure o with
    | Some e =>
        (Raise e,
         [Print (WaitingForElement element); WaitForSelector element],
         w1)
    | None =>
        (Ok tt,
         [Print (WaitingForElement element); WaitForSelector element;
          Print (ElapsedTime (Z.of_N (took o)))],
         w1)
    end.
Proof.
  intros Hact Helt. step_eval Hact. rewrite Helt.
  destruct (failure (next_outcome w)) as [e|]; same_run.
Qed.

Lemma execute_step_wait_no_element (st : step) (w : world) :
  st !! "action" = Some "wait" ->
  truthy (st !! "element") = None ->
  execute_step st w =
    (Ok tt, [Print NoElementForWait; Print (ElapsedTime 0)], w).
Proof. intros Hact Helt. step_eval Hact. rewrite Helt. same_run. Qed.

Lemma execute_step_speak (st : step) (text : string) (w : world) :
  st !! "action" = Some "speak" ->
  truthy (st !! "text") = Some text ->
  execute_step st w =
    let o := next_outcome w in
    let w1 := advance w (Z.of_N (took o)) in
    match failure o with
    | Some e =>
        (Raise e,
         [Print (Speaking text); Evaluate (speak_script text)],
         w1)
    | None =>
        let o' := next_outcome w1 in
        (Ok tt,
         [Print (Speaking text); Evaluate (speak_script text);
          Sleep speech_wait;
          Print (ElapsedTime
                   (Z.of_N (took o) + speech_wait + Z.of_N (took o')))],
         advance w1 (speech_wait + Z.of_N (took o')))
    end.
Proof.
  intros Hact Htxt. step_eval Hact. rewrite Htxt.
  destruct (failure (next_outcome w)) as [e|]; same_run.
Qed.

Lemma execute_step_speak_no_text (st : step) (w : world) :
  st !! "action" = Some "speak" ->
  truthy (st !! "text") = None ->
  execute_step st w = (Ok tt, [Print (ElapsedTime 0)], w).
Proof. intros Hact Htxt. step_eval Hact. rewrite Htxt. same_run. Qed.

Lemma execute_step_unknown (st : step) (w : world) :
  (forall k, st !! "action" = Some k -> ~ In k known_kinds) ->
  execute_step st w =
    (Ok tt,
     [Print (UnknownAction (st !! "action")); Print (ElapsedTime 0)],
     w).
Proof.
  intros Hun. unfold execute_step. rewrite now_bind.
  rewrite !(is_str_unknown _ _ Hun) by (simpl; tauto).
  unfold bind, print, now. same_run.
Qed.

(** ** [src/main.py]: the loops *)

Lemma dispatched_app (t1 t2 : list (event log)) :
  dispatched (t1 ++ t2) = dispatched t1 ++ dispatched t2.
Proof.
  induction t1 as [|e t1 IH]; [reflexivity|].
  destruct e as [[]| | | | | | | | | |]; simpl; now rewrite ?IH.
Qed.

(** Whatever it does, [execute_step] returns or raises, and never
    announces a step itself. *)
Lemma execute_step_dispatches_nothing (st : step) (w : world) :
  dispatched (trace (execute_step st w)) = [].
Proof.
  unfold execute_step. rewrite now_bind.
  repeat match goal with
         | |- context [if ?b then _ else _] => destruct b
         | |- context [match truthy ?v with _ => _ end] => destruct (truthy v)
         end;
    unfold bind, try_except, call, sleep, print, now, ret;
    destruct (failure (next_outcome w)); reflexivity.
Qed.

(** The loop hands steps to [execute_step] in list order, without
    skipping or repeating, up to the first step that raises. *)
Lemma run_steps_dispatched_prefix (numbered : list (nat * step)) (w : world) :
  dispatched (trace (run_steps numbered w)) `prefix_of` numbered.
Proof.
  revert w. induction numbered as [|[i st] rest IH]; intros w.
  - now exists [].
  - destruct (execute_step st w) as [[[[]|e] t] w'] eqn:E.
    + rewrite (run_steps_cons_ok _ _ _ _ _ _ E). cbn [trace fst snd dispatched].
      rewrite dispatched_app.
      pose proof (execute_step_dispatches_nothing st w) as Hn.
      rewrite E in Hn. cbn [trace fst snd] in Hn. rewrite Hn. simpl.
      apply prefix_cons, IH.
    + rewrite (run_steps_cons_raise _ _ _ _ _ _ _ E). cbn [trace fst snd dispatched].
      pose proof (execute_step_dispatches_nothing st w) as Hn.
      rewrite E in Hn. cbn [trace fst snd] in Hn. rewrite Hn.
      apply prefix_cons, prefix_nil.
Qed.

(** When the loop returns, every step was handed over exactly once. *)
Lemma run_steps_dispatched_all (numbered : list (nat * step)) (w : world) :
  outcome_of (run_steps numbered w) = Ok tt ->
  dispatched (trace (run_steps numbered w)) = numbered.
Proof.
  revert w. induction numbered as [|[i st] rest IH]; intros w; [reflexivity|].
  destruct (execute_step st w) as [[[[]|e] t] w'] eqn:E.
  - rewrite (run_steps_cons_ok _ _ _ _ _ _ E). cbn [outcome_of trace fst snd dispatched].
    intros Hok. rewrite dispatched_app.
    pose proof (execute_step_dispatches_nothing st w) as Hn.
    rewrite E in Hn. cbn [trace fst snd] in Hn. rewrite Hn. simpl.
    f_equal. apply IH. exact Hok.
  - rewrite (run_steps_cons_raise _ _ _ _ _ _ _ E). discriminate.
Qed.

(** Each file of the listing gets its [addScriptTag], in the listing's
    order; a failing one is reported and the loop goes on. *)
Lemma inject_javascript_files_all (js_files : list string) (w : world) :
  outcome_of (inject_javascript_files js_files w) = Ok tt /\
  script_tags (trace (inject_javascript_files js_files w)) = js_files.
Proof.
  revert w. induction js_files as [|f fs IH]; intros w; [now split|].
  unfold inject_javascript_files. simpl for_each.
  fold (inject_javascript_files fs).
  set (w1 := advance w (Z.of_N (took (next_outcome w)))).
  destruct (IH w1) as [Hok Htags].
  unfold bind at 1, try_except, bind, call, print. fold w1.
  destruct (failure (next_outcome w)) as [e|];
    destruct (inject_javascript_files fs w1) as [[r t] w2];
    cbn in *; now subst.
Qed.

End MainFacts.

(** ** [src/voice_agent_tester/__main.py] *)

Module PackageFacts.
Import Package.

(** The two host operations, as far as traces go. *)
Lemma emits_only_os_sleep (P : event log -> Prop) (ms : Z) :
  P (Sleep ms) -> emits_only P (os_sleep ms).
Proof.
  intros H w. unfold os_sleep.
  destruct (failure (next_outcome w)); repeat constructor; exact H.
Qed.

Lemma emits_only_read_text (P : event log -> Prop)
    (fs : string -> option entry) (path : string) :
  emits_only P (read_text fs path).
Proof.
  intros w. unfold read_text.
  destruct (fs path) as [[content|e]|]; constructor.
Qed.

Lemma os_sleep_trace (ms : Z) (w : world) : trace (os_sleep ms w) = [Sleep ms].
Proof. unfold os_sleep. now destruct (failure (next_outcome w)). Qed.

Section Host.
Variable here : string.
Variable fs : string -> option entry.
Variable py_int : string -> option Z.

Local Abbreviation run_step := (run_step py_int).
Local Abbreviation scenario_body := (scenario_body here fs py_int).
Local Abbreviation run_scenario := (run_scenario here fs py_int).
Local Abbreviation run := (run here fs py_int).

Lemma run_step_say (st : Step) (w : world) :
  action st = "say" ->
  run_step st w =
    (Ok tt,
     [Print (ExecutingStep (action st) (value st));
      Print (SimulatingVoiceInput (value st))],
     w).
Proof. intros E. unfold run_step. rewrite E. reflexivity. Qed.

Lemma run_step_unknown (st : Step) (w : world) :
  action st <> "wait" -> action st <> "say" ->
  run_step st w =
    (Ok tt,
     [Print (ExecutingStep (action st) (value st));
      Print (UnknownAction (action st))],
     w).
Proof.
  intros Hw Hs. unfold run_step.
  apply String.eqb_neq in Hw, Hs. rewrite Hw, Hs. reflexivity.
Qed.

(** No step of this interpreter reaches the page or closes the browser:
    a step prints, and [wait] sleeps. *)
Lemma run_step_offline (st : Step) :
  emits_only
    (fun e => match e with Print _ | Sleep _ => True | _ => False end)
    (run_step st).
Proof.
  unfold run_step, int_of, time_sleep.
  destruct (String.eqb (action st) "wait");
    [|destruct (String.eqb (action st) "say")];
    repeat first
      [ apply emits_only_bind; [|intros ?]
      | destruct (value st) as [s|n]; [destruct (py_int s)|]
      | match goal with |- context [if ?b then _ else _] => destruct b end
      | solve [apply emits_only_os_sleep; exact I]
      | solve [auto with emits] ].
Qed.

Lemma steps_loop_cons_ok (st : Step) (rest : list Step) (w w' : world)
    (t : list (event log)) :
  run_step st w = (Ok tt, t, w') ->
  for_each (st :: rest) run_step w =
    (outcome_of (for_each rest run_step w'),
     t ++ trace (for_each rest run_step w'),
     final (for_each rest run_step w')).
Proof. intros E. simpl. now rewrite (bind_ok _ _ _ _ _ _ E). Qed.

Lemma package_dispatched_app (t1 t2 : list (event log)) :
  dispatched (t1 ++ t2) = dispatched t1 ++ dispatched t2.
Proof.
  induction t1 as [|e t1 IH]; [reflexivity|].
  destruct e as [[]| | | | | | | | | |]; simpl; now rewrite ?IH.
Qed.

(** Entering a step announces it, once, before anything can raise. *)
Lemma run_step_dispatches_itself (st : Step) (w : world) :
  dispatched (trace (run_step st w)) = [st].
Proof.
  unfold Package.run_step. rewrite print_bind. cbn [trace fst snd dispatched].
  destruct st as [a v]. cbn [action value]. f_equal.
  unfold int_of, time_sleep.
  destruct (String.eqb a "wait"); [|now destruct (String.eqb a "say")].
  destruct v as [s|n]; [destruct (py_int s) as [n|]; [|reflexivity]|];
    unfold bind, ret, raise, os_sleep;
    destruct ((n <? - sleep_limit) || (sleep_limit <? n)); try reflexivity;
    destruct (n <? 0); try reflexivity;
    now destruct (failure (next_outcome w)).
Qed.

(** The loop enters the steps in list order, without skipping or
    repeating, up to the first step that raises. *)
Lemma steps_loop_dispatched_prefix (sts : list Step) (w : world) :
  dispatched (trace (for_each sts run_step w)) `prefix_of` sts.
Proof.
  revert w. induction sts as [|st rest IH]; intros w; [now exists []|].
  pose proof (run_step_dispatches_itself st w) as Hd.
  simpl for_each. unfold bind.
  destruct (run_step st w) as [[[[]|e] t] w1]; cbn [trace fst snd] in *.
  - specialize (IH w1).
    destruct (for_each rest run_step w1) as [[r t'] w2].
    cbn [trace fst snd] in *. rewrite package_dispatched_app, Hd.
    now apply prefix_cons.
  - rewrite Hd. apply prefix_cons, prefix_nil.
Qed.

Lemma steps_loop_offline (sts : list Step) :
  emits_only
    (fun e => match e with Print _ | Sleep _ => True | _ => False end)
    (for_each sts run_step).
Proof. apply emits_only_for_each, run_step_offline. Qed.

(** One asset, when reading it does not raise and the oracle lets the
    next call through: the asset's events, then whatever comes next. *)
Lemma inject_asset_bind {B} (path : string) (announce warning : log)
    (k : unit -> M log B) (n : nat) (w : world) :
  readable fs path ->
  quiet (S n) (oracle w) ->
  exists w1,
    quiet n (oracle w1) /\
    bind (inject_asset fs path announce warning) k w =
      (outcome_of (k tt w1),
       asset_events fs path announce warning ++ trace (k tt w1),
       final (k tt w1)).
Proof.
  intros Hread Hq.
  unfold inject_asset, asset_events, path_exists, read_text.
  destruct (fs path) as [[content|e]|] eqn:Hfs.
  - destruct (quiet_next _ _ Hq) as [Hok Hnext].
    exists (advance w (Z.of_N (took (next_outcome w)))).
    split; [apply Hnext|].
    rewrite (bind_ok _ _ w tt
               [Print announce; Evaluate content]
               (advance w (Z.of_N (took (next_outcome w))))).
    + reflexivity.
    + rewrite ret_bind, print_bind. unfold call. rewrite Hok. reflexivity.
  - now destruct (Hread e).
  - exists w. split; [apply quiet_weaken, Hq|].
    apply print_bind.
Qed.

(** The body of a scenario while reading the assets, navigation and the
    evaluations do not raise: navigation, then the three assets in the
    order of the source, then the steps. *)
Lemma scenario_body_injects_then_steps (sc : Scenario) (w : world) :
  readable fs (audio_hooks_path here) ->
  readable fs (audio_input_hooks_path here) ->
  readable fs (js_file_path here sc) ->
  quiet 4 (oracle w) ->
  exists w1,
    scenario_body sc w =
      (outcome_of (for_each (steps sc) run_step w1),
       [Print (NavigatingTo (url sc)); Goto (url sc)]
         ++ asset_events fs (audio_hooks_path here)
              InjectingAudioOutputHooks
              (AudioOutputHooksNotFound (audio_hooks_path here))
         ++ asset_events fs (audio_input_hooks_path here)
              InjectingAudioInputHooks
              (AudioInputHooksNotFound (audio_input_hooks_path here))
         ++ asset_events fs (js_file_path here sc)
              (InjectingJavaScript (javascript_file sc))
              (JavaScriptFileNotFound (js_file_path here sc))
         ++ trace (for_each (steps sc) run_step w1),
       final (for_each (steps sc) run_step w1)).
Proof.
  intros Hout Hin Hjs Hq. unfold Package.scenario_body.
  destruct (quiet_next _ _ Hq) as [Hgoto Hq3].
  rewrite print_bind, (call_bind_ok _ _ _ Hgoto). cbv zeta.
  set (w0 := advance w _). specialize (Hq3 (Z.of_N (took (next_outcome w)))).
  fold w0 in Hq3.
  destruct (inject_asset_bind (audio_hooks_path here)
              InjectingAudioOutputHooks
              (AudioOutputHooksNotFound (audio_hooks_path here))
              (fun _ =>
                 bind (inject_asset fs (audio_input_hooks_path here)
                         InjectingAudioInputHooks
                         (AudioInputHooksNotFound (audio_input_hooks_path here)))
                   (fun _ =>
                      bind (inject_asset fs (js_file_path here sc)
                              (InjectingJavaScript (javascript_file sc))
                              (JavaScriptFileNotFound (js_file_path here sc)))
                        (fun _ => for_each (steps sc) run_step)))
              2%nat w0 Hout Hq3) as (wa & Hqa & Ea).
  rewrite Ea. clear Ea.
  destruct (inject_asset_bind (audio_input_hooks_path here)
              InjectingAudioInputHooks
              (AudioInputHooksNotFound (audio_input_hooks_path here))
              (fun _ =>
                 bind (inject_asset fs (js_file_path here sc)
                         (InjectingJavaScript (javascript_file sc))
                         (JavaScriptFileNotFound (js_file_path here sc)))
                   (fun _ => for_each (steps sc) run_step))
              1%nat wa Hin Hqa) as (wb & Hqb & Eb).
  rewrite Eb. clear Eb.
  destruct (inject_asset_bind (js_file_path here sc)
              (InjectingJavaScript (javascript_file sc))
              (JavaScriptFileNotFound (js_file_path here sc))
              (fun _ => for_each (steps sc) run_step)
              0%nat wb Hjs Hqb) as (wc & _ & Ec).
  rewrite Ec. clear Ec.
  exists wc. reflexivity.
Qed.

(** Handling one asset only announces, warns and evaluates. *)
Lemma inject_asset_emits (P : event log -> Prop) (path : string)
    (announce warning : log) :
  P (Print announce) -> P (Print warning) -> (forall s, P (Evaluate s)) ->
  emits_only P (inject_asset fs path announce warning).
Proof.
  intros Ha Hw He. unfold inject_asset.
  destruct (path_exists fs path); [|now apply emits_only_print].
  apply emits_only_bind; [apply emits_only_read_text|intros content].
  apply emits_only_bind; [now apply emits_only_print|intros _].
  now apply emits_only_call.
Qed.

(** The guarded part of [run_scenario] never raises and never closes the
    browser itself. *)
Lemma guarded_body_returns (sc : Scenario) (w : world) :
  outcome_of
    (try_except (scenario_body sc) (fun e => print (ScenarioError e)) w)
  = Ok tt.
Proof.
  unfold try_except.
  destruct (scenario_body sc w) as [[[[]|e] t] w']; reflexivity.
Qed.

Lemma guarded_body_keeps_browser (sc : Scenario) :
  emits_only (fun e => is_close e = false)
    (try_except (scenario_body sc) (fun e => print (ScenarioError e))).
Proof.
  apply emits_only_try_except; [|intros e; now apply emits_only_print].
  unfold Package.scenario_body.
  repeat first
    [ apply emits_only_bind; [|intros ?]
    | solve [now apply inject_asset_emits]
    | solve [auto with emits] ].
  intros w. eapply Forall_impl; [apply steps_loop_offline|].
  now intros [].
Qed.

(** The shape of a scenario once the browser and the page exist: the
    guarded part, then the one [close] of the [finally]. *)
Lemma run_scenario_with_session (sc : Scenario) (w : world) :
  let w1 := advance w (Z.of_N (took (next_outcome w))) in
  let w2 := advance w1 (Z.of_N (took (next_outcome w1))) in
  let guarded :=
    try_except (scenario_body sc) (fun e => print (ScenarioError e)) w2 in
  failure (next_outcome w) = None ->
  failure (next_outcome w1) = None ->
  trace (run_scenario sc w) =
    [Print (RunningScenario (name sc)); Launch false []; NewPage; OnConsole]
      ++ trace guarded ++ [Close].
Proof.
  intros w1 w2 guarded Hlaunch Hpage. unfold Package.run_scenario.
  rewrite print_bind, (call_bind_ok _ _ _ Hlaunch). cbv zeta. fold w1.
  rewrite (call_bind_ok _ _ _ Hpage). cbv zeta. fold w2.
  rewrite on_console_bind. cbn [trace outcome_of final fst snd].
  rewrite try_finally_trace. fold guarded.
  rewrite (proj2 (call_trace Close (final guarded))). reflexivity.
Qed.

(** A scenario whose browser and page came up closes the browser exactly
    once, whatever navigation, injection and the steps did. *)
Lemma run_scenario_closes_once (sc : Scenario) (w : world) :
  let w1 := advance w (Z.of_N (took (next_outcome w))) in
  failure (next_outcome w) = None ->
  failure (next_outcome w1) = None ->
  closes (trace (run_scenario sc w)) = 1%nat.
Proof.
  intros w1 Hlaunch Hpage.
  rewrite (run_scenario_with_session sc w Hlaunch Hpage).
  rewrite !closes_app, (closes_none _ (guarded_body_keeps_browser sc _)).
  reflexivity.
Qed.

(** A browser that does not start: the scenario raises at once. *)
Lemma run_scenario_launch_raises (sc : Scenario) (w : world) (e : exn) :
  failure (next_outcome w) = Some e ->
  run_scenario sc w =
    (Raise e,
     [Print (RunningScenario (name sc)); Launch false []],
     advance w (Z.of_N (took (next_outcome w)))).
Proof.
  intros Hlaunch. unfold Package.run_scenario.
  rewrite print_bind, (call_bind_raise _ _ _ _ Hlaunch). reflexivity.
Qed.

Lemma run_load_raised (config_file : string) (e : exn) (w : world) :
  run config_file (LoadRaised e) w =
    (Ok tt,
     [Print (LoadingConfiguration config_file);
      Print (failure_line config_file e)],
     w).
Proof. reflexivity. Qed.

Lemma run_launch_raised (config_file : string)
    (before : list Scenario) (sc : Scenario) (after : list Scenario)
    (w w' : world) (t : list (event log)) (e : exn) :
  for_each before run_scenario w = (Ok tt, t, w') ->
  failure (next_outcome w') = Some e ->
  run config_file (Loaded {| scenarios := before ++ sc :: after |}) w =
    (Ok tt,
     Print (LoadingConfiguration config_file)
       :: t
       ++ [Print (RunningScenario (name sc)); Launch false [];
           Print (failure_line config_file e)],
     advance w' (Z.of_N (took (next_outcome w')))).
Proof.
  intros Hbefore Hlaunch. unfold Package.run.
  rewrite print_bind. unfold try_except. cbn [scenarios].
  rewrite (for_each_raise before after sc _ w t w' e _ _ Hbefore
             (run_scenario_launch_raises sc w' e Hlaunch)).
  cbn. now rewrite <- app_assoc.
Qed.

End Host.
End PackageFacts.

(** * The claims of the specification *)

Import Sample.

(** ** Click, the voice and silence windows, speech *)

(** C7. A click step with a selector: when the click raises (no element
    matches, or the driver fails) the step prints the click error line and
    returns, so nothing escapes and the loop goes on with the following
    steps; when the click succeeds the fixed settle sleep of half a second
    (500 ms) follows it, and has gone by on the clock when the step ends
    and the next one starts. *)
Theorem click_failure_is_logged_and_contained
    (st : Main.step) (element : string) (w : world) :
  st !! "action" = Some "click" ->
  st !! "element" = Some element ->
  element <> EmptyString ->
  let r := Main.execute_step st w in
  outcome_of r = Ok tt /\
  (forall i rest,
     Main.run_steps ((i, st) :: rest) w =
       (outcome_of (Main.run_steps rest (final r)),
        Print (Main.ExecutingStep i st)
          :: trace r ++ trace (Main.run_steps rest (final r)),
        final (Main.run_steps rest (final r)))) /\
  match failure (next_outcome w) with
  | Some e =>
      trace r =
        [Print (Main.ClickingElement element); Click element;
         Print (Main.ErrorClicking element e);
         Print (Main.ElapsedTime (Z.of_N (took (next_outcome w))))] /\
      Main.is_error (Main.ErrorClicking element e) = true
  | None =>
      exists elapsed,
        trace r =
          [Print (Main.ClickingElement element); Click element;
           Sleep 500;
           Print (Main.ElapsedTime elapsed)] /\
        500 <= elapsed /\
        clock (final r) = clock w + elapsed
  end.
Proof.
  intros Hact Helt Hne r.
  pose proof (MainFacts.execute_step_click st element w Hact
                (MainFacts.truthy_present _ _ Helt Hne)) as E.
  fold r in E. cbv zeta in E.
  assert (Hok : outcome_of r = Ok tt).
  { rewrite E. now destruct (failure (next_outcome w)). }
  split; [exact Hok|]. split.
  - intros i rest. apply MainFacts.run_steps_cons_ok.
    fold r. rewrite <- Hok. apply triple_eta.
  - destruct (failure (next_outcome w)) as [e|]; rewrite E.
    + now split.
    + eexists. split; [reflexivity|].
      change Main.click_settle with 500. cbn. split; lia.
Qed.

Lemma click_failure_is_logged_and_contained_witness :
  let r := Main.execute_step click_start (starting [raises timeout 30000]) in
  let r' := Main.execute_step click_start (starting [passes 80; passes 3]) in
  outcome_of r = Ok tt /\
  trace r =
    [Print (Main.ClickingElement "#start"); Click "#start";
     Print (Main.ErrorClicking "#start" timeout);
     Print (Main.ElapsedTime 30000)] /\
  exists elapsed,
    trace r' =
      [Print (Main.ClickingElement "#start"); Click "#start";
       Sleep 500;
       Print (Main.ElapsedTime elapsed)] /\
    500 <= elapsed /\
    clock (final r') = clock (starting [passes 80; passes 3]) + elapsed.
Proof.
  destruct (click_failure_is_logged_and_contained
              click_start "#start" (starting [raises timeout 30000])
              eq_refl eq_refl ltac:(discriminate)) as (Hok & _ & Ht & _).
  destruct (click_failure_is_logged_and_contained
              click_start "#start" (starting [passes 80; passes 3])
              eq_refl eq_refl ltac:(discriminate)) as (_ & _ & Hs).
  split; [exact Hok|]. split; [exact Ht|exact Hs].
Defined.

(** C6. A wait_for_voice or wait_for_silence step never raises, whatever
    the browser does: it prints its line, sleeps for the fixed window of
    the source (1000 seconds) and reports an elapsed time that is at least
    that window. *)
Theorem voice_and_silence_waits_are_pure_delays (st : Main.step) (w : world) :
  st !! "action" = Some "wait_for_voice" \/
  st !! "action" = Some "wait_for_silence" ->
  exists line window elapsed w',
    Main.execute_step st w =
      (Ok tt,
       [Print line; Sleep window; Print (Main.ElapsedTime elapsed)],
       w') /\
    window = 1000 * 1000 /\
    window <= elapsed /\
    clock w' = clock w + elapsed.
Proof.
  intros [Hact|Hact].
  - rewrite (MainFacts.execute_step_wait_for_voice st w Hact).
    do 4 eexists. split; [reflexivity|]. cbn. repeat split; lia.
  - rewrite (MainFacts.execute_step_wait_for_silence st w Hact).
    do 4 eexists. split; [reflexivity|]. cbn. repeat split; lia.
Qed.

Lemma voice_and_silence_waits_are_pure_delays_witness :
  exists line window elapsed w',
    Main.execute_step voice (starting [raises timeout 7]) =
      (Ok tt,
       [Print line; Sleep window; Print (Main.ElapsedTime elapsed)],
       w') /\
    window = 1000 * 1000 /\
    window <= elapsed /\
    clock w' = clock (starting [raises timeout 7]) + elapsed.
Proof.
  apply (voice_and_silence_waits_are_pure_delays voice).
  left. reflexivity.
Defined.

(** C10. A speak step whose text is missing or empty does nothing but
    report its elapsed time: no call to the page, no error line, and the
    step returns. *)
Theorem speak_without_text_is_silently_skipped (st : Main.step) (w : world) :
  st !! "action" = Some "speak" ->
  st !! "text" = None \/ st !! "text" = Some EmptyString ->
  Main.execute_step st w = (Ok tt, [Print (Main.ElapsedTime 0)], w).
Proof.
  intros Hact Htxt.
  apply MainFacts.execute_step_speak_no_text; [exact Hact|].
  apply MainFacts.truthy_absent, Htxt.
Qed.

Lemma speak_without_text_is_silently_skipped_witness :
  Main.execute_step speak_nothing (starting [raises timeout 5]) =
    (Ok tt, [Print (Main.ElapsedTime 0)], starting [raises timeout 5]).
Proof.
  apply (speak_without_text_is_silently_skipped speak_nothing).
  - reflexivity.
  - left. reflexivity.
Defined.

(** ** Failures that are not contained *)

(** C1. The handler of a wait step is not guarded the way the click
    handler is: when waiting for the selector raises, the exception leaves
    [execute_step] before the elapsed time is reported, leaves the loop
    over the steps, and is only caught by the handler around the whole
    scenario; the click step that follows is never run. *)
Theorem wait_failure_escapes_the_step_loop :
  Main.run_steps (enumerate 1 [wait_agent; click_start])
    (starting [raises timeout 30000]) =
    (Raise timeout,
     [Print (Main.ExecutingStep 1 wait_agent);
      Print (Main.WaitingForElement "#agent");
      WaitForSelector "#agent"],
     {| oracle := []; clock := 30000 |}) /\
  trace
    (Main.run_scenario cfg [] page_url [wait_agent; click_start]
       (starting [passes 900; passes 40; passes 350; raises timeout 30000])) =
    [Launch true Main.launch_flags; NewPage; Goto page_url;
     Print (Main.ExecutingStep 1 wait_agent);
     Print (Main.WaitingForElement "#agent");
     WaitForSelector "#agent";
     Print (Main.ErrorRunningScenario timeout)].
Proof. split; vm_compute; reflexivity. Qed.

(** The package entry point has no guard around a step either: a wait
    step with a negative value raises in [time.sleep], the scenario-level
    handler reports it, and the say step after it is not entered (the
    browser is still closed, by the [finally]). *)
Lemma package_failed_wait_skips_the_remaining_steps :
  trace
    (Package.run_scenario pkg_dir host_fs sample_int
       {| Package.name := "late";
          Package.url := page_url;
          Package.javascript_file := "late.js";
          Package.steps :=
            [{| Package.action := "wait"; Package.value := Package.Int (-1) |};
             pkg_say] |}
       (starting [])) =
    [Print (Package.RunningScenario "late"); Launch false []; NewPage;
     OnConsole;
     Print (Package.NavigatingTo page_url); Goto page_url;
     Print Package.InjectingAudioOutputHooks;
     Evaluate "window.__audioOut = [];";
     Print (Package.AudioInputHooksNotFound
              "/app/voice_agent_tester/javascript/audio_input_hooks.js");
     Print (Package.JavaScriptFileNotFound
              "/app/voice_agent_tester/../scenarios/late.js");
     Print (Package.ExecutingStep "wait" (Package.Int (-1)));
     Print (Package.ScenarioError
              {| cls := ValueError;
                 msg := "sleep length must be non-negative" |});
     Close].
Proof. vm_compute. reflexivity. Qed.

(** C2. In [src/main.py] the browser is closed by the last statement of
    the guarded block and nowhere else: after a wait step that raises, the
    scenario ends with the browser launched and never closed. *)
Theorem main_leaves_the_browser_open_after_a_failed_step :
  let run :=
    Main.run_scenario cfg [] page_url [wait_agent]
      (starting [passes 900; passes 40; passes 350; raises timeout 30000]) in
  outcome_of run = Ok tt /\
  trace run =
    [Launch true Main.launch_flags; NewPage; Goto page_url;
     Print (Main.ExecutingStep 1 wait_agent);
     Print (Main.WaitingForElement "#agent");
     WaitForSelector "#agent";
     Print (Main.ErrorRunningScenario timeout)] /\
  closes (trace run) = 0%nat.
Proof. repeat split; vm_compute; reflexivity. Qed.

(** C3. The loop hands the steps over in file order, but a step after one
    whose handler raised is not handed over at all: of a wait step that
    times out followed by a click step, only the first is dispatched. *)
Theorem step_after_a_failed_wait_is_never_dispatched :
  let run :=
    Main.run_scenario cfg [] page_url [wait_agent; click_start]
      (starting [passes 900; passes 40; passes 350; raises timeout 30000]) in
  Main.dispatched (trace run) = [(1%nat, wait_agent)] /\
  Main.dispatched (trace run) <> enumerate 1 [wait_agent; click_start].
Proof. split; [vm_compute; reflexivity|]. vm_compute. discriminate. Qed.

(** In [src/main.py] nothing before the last statement of the guarded
    block closes the browser, so a scenario closes it at most once, and
    not at all when anything before that statement raised. *)
Lemma closes_bind_le {L A B} (m : M L A) (k : A -> M L B) (n : nat) (w : world) :
  emits_only (fun e => is_close e = false) m ->
  (forall a w', (closes (trace (k a w')) <= n)%nat) ->
  (closes (trace (bind m k w)) <= n)%nat.
Proof.
  intros Hm Hk. unfold bind. specialize (Hm w).
  destruct (m w) as [[[a|e] t] w1]; cbn [trace fst snd] in *.
  - specialize (Hk a w1). destruct (k a w1) as [[r t'] w2].
    cbn [trace fst snd] in *. rewrite closes_app, (closes_none _ Hm). lia.
  - rewrite (closes_none _ Hm). lia.
Qed.

Lemma main_execute_step_keeps_browser (st : Main.step) :
  emits_only (fun e => is_close e = false) (Main.execute_step st).
Proof.
  unfold Main.execute_step.
  repeat first
    [ apply emits_only_bind; [|intros ?]
    | apply emits_only_try_except; [|intros ?]
    | match goal with
      | |- context [if ?b then _ else _] => destruct b
      | |- context [match truthy ?v with _ => _ end] => destruct (truthy v)
      end
    | solve [auto with emits] ].
Qed.

Lemma main_closes_at_most_once (cfg : Main.settings) (js_files : list string)
    (url : string) (steps : list Main.step) (w : world) :
  (closes (trace (Main.run_scenario cfg js_files url steps w)) <= 1)%nat.
Proof.
  unfold Main.run_scenario, try_except.
  match goal with
  | |- context [match ?body w with _ => _ end] =>
      assert (Hbody : (closes (trace (body w)) <= 1)%nat);
      [|destruct (body w) as [[[[]|e] t] w1]; unfold print;
        cbn [trace fst snd] in *; [exact Hbody|];
        rewrite closes_app, (closes_none [_]) by (now repeat constructor);
        lia]
  end.
  repeat (apply closes_bind_le; [|intros ? ?]).
  - now apply emits_only_call.
  - now apply emits_only_call.
  - destruct (Main.verbose cfg);
      [now apply emits_only_on_console|apply emits_only_ret].
  - now apply emits_only_call.
  - apply emits_only_for_each. intros f.
    apply emits_only_try_except; [|intros e; now apply emits_only_print].
    apply emits_only_bind; [now apply emits_only_call|intros _].
    now apply emits_only_print.
  - apply emits_only_for_each. intros [i st].
    apply emits_only_bind; [now apply emits_only_print|intros _].
    apply main_execute_step_keeps_browser.
  - now apply emits_only_sleep.
  - rewrite (proj2 (call_trace Close _)). reflexivity.
Qed.

(** ** Unknown kinds *)

(** C8. A step whose action is none of the kinds an interpreter knows is
    a no-op: it prints the unknown-action line (and, in [src/main.py], an
    elapsed time of zero), touches neither the page nor the clock, returns,
    and the loop goes on with the following steps.  This holds for both
    interpreters. *)
Theorem unknown_kind_is_a_logged_no_op
    (st : Main.step) (pst : Package.Step) (py_int : string -> option Z)
    (w : world) :
  (forall k, st !! "action" = Some k -> ~ In k Main.known_kinds) ->
  Package.action pst <> "wait" ->
  Package.action pst <> "say" ->
  (Main.execute_step st w =
     (Ok tt,
      [Print (Main.UnknownAction (st !! "action"));
       Print (Main.ElapsedTime 0)],
      w) /\
   forall i rest,
     Main.run_steps ((i, st) :: rest) w =
       (outcome_of (Main.run_steps rest w),
        [Print (Main.ExecutingStep i st);
         Print (Main.UnknownAction (st !! "action"));
         Print (Main.ElapsedTime 0)]
          ++ trace (Main.run_steps rest w),
        final (Main.run_steps rest w))) /\
  (Package.run_step py_int pst w =
     (Ok tt,
      [Print (Package.ExecutingStep (Package.action pst) (Package.value pst));
       Print (Package.UnknownAction (Package.action pst))],
      w) /\
   forall rest,
     for_each (pst :: rest) (Package.run_step py_int) w =
       (outcome_of (for_each rest (Package.run_step py_int) w),
        [Print (Package.ExecutingStep (Package.action pst) (Package.value pst));
         Print (Package.UnknownAction (Package.action pst))]
          ++ trace (for_each rest (Package.run_step py_int) w),
        final (for_each rest (Package.run_step py_int) w))).
Proof.
  intros Hun Hwait Hsay.
  pose proof (MainFacts.execute_step_unknown st w Hun) as Em.
  pose proof (PackageFacts.run_step_unknown py_int pst w Hwait Hsay) as Ep.
  repeat split; try assumption.
  - intros i rest. exact (MainFacts.run_steps_cons_ok i st rest w w _ Em).
  - intros rest. exact (PackageFacts.steps_loop_cons_ok py_int pst rest w w _ Ep).
Qed.

Lemma unknown_kind_is_a_logged_no_op_witness :
  Main.execute_step hover (starting [raises timeout 5]) =
    (Ok tt,
     [Print (Main.UnknownAction (Some "hover")); Print (Main.ElapsedTime 0)],
     starting [raises timeout 5]) /\
  Package.run_step sample_int pkg_speak (starting [raises timeout 5]) =
    (Ok tt,
     [Print (Package.ExecutingStep "speak" (Package.Str "hello"));
      Print (Package.UnknownAction "speak")],
     starting [raises timeout 5]).
Proof.
  assert (Hun : forall k, hover !! "action" = Some k -> ~ In k Main.known_kinds).
  { intros k [= <-]. simpl. intros [H|[H|[H|[H|[H|[]]]]]]; discriminate H. }
  destruct (unknown_kind_is_a_logged_no_op hover pkg_speak sample_int
              (starting [raises timeout 5]) Hun
              ltac:(discriminate) ltac:(discriminate))
    as [[Em _] [Ep _]].
  split; [exact Em|exact Ep].
Defined.

(** ** Speech *)

(** C5, as stated, fails on the package entry point: its interpreter has
    no speak handler.  A speak step falls through to the unknown-action
    line, and the say step, the nearest it has, only prints the text;
    neither evaluates anything in the page. *)
Lemma package_speak_step_reaches_no_speech_synthesis :
  trace (Package.run_step sample_int pkg_speak (starting [])) =
    [Print (Package.ExecutingStep "speak" (Package.Str "hello"));
     Print (Package.UnknownAction "speak")] /\
  trace (Package.run_step sample_int pkg_say (starting [])) =
    [Print (Package.ExecutingStep "say" (Package.Str "hello"));
     Print (Package.SimulatingVoiceInput (Package.Str "hello"))] /\
  ~ (exists script,
       evaluated (trace (Package.run_step sample_int pkg_speak (starting [])))
       = [script]).
Proof.
  repeat split; try reflexivity.
  intros [script H]. vm_compute in H. discriminate H.
Qed.

(** How the page reads back the script of the speak handler. *)
Lemma strip_prefix_append (p s : string) :
  Main.strip_prefix p (p +:+ s) = Some s.
Proof.
  induction p as [|a p IH]; [reflexivity|].
  change (String a p +:+ s) with (String a (p +:+ s)).
  cbn [Main.strip_prefix]. now rewrite Ascii.eqb_refl.
Qed.

Lemma read_plain_literal_append (text rest : string) :
  Main.js_plain text = true ->
  Main.read_plain_literal (text +:+ String (Ascii.ascii_of_nat 34) rest) =
    Some (text, rest).
Proof.
  induction text as [|c text IH]; intros Hplain.
  - change (EmptyString +:+ String (Ascii.ascii_of_nat 34) rest)
      with (String (Ascii.ascii_of_nat 34) rest).
    cbn [Main.read_plain_literal]. now rewrite Ascii.eqb_refl.
  - cbn [Main.js_plain] in Hplain.
    apply andb_prop in Hplain as [Hc Htext].
    change (String c text +:+ String (Ascii.ascii_of_nat 34) rest)
      with (String c (text +:+ String (Ascii.ascii_of_nat 34) rest)).
    cbn [Main.read_plain_literal]. rewrite Hc, (IH Htext).
    unfold Main.js_plain_char in Hc.
    destruct (Ascii.eqb c (Ascii.ascii_of_nat 34)); [discriminate|reflexivity].
Qed.

(** A text that needs no escaping is what the page hands to speech
    synthesis when it evaluates the script built from it. *)
Lemma plain_text_is_spoken_as_it_is (text : string) :
  Main.js_plain text = true ->
  Main.spoken (Main.speak_script text) = Some text.
Proof.
  intros Hplain. unfold Main.spoken, Main.speak_script.
  rewrite <- string_append_assoc, strip_prefix_append.
  change (Main.dquote +:+ "))") with (String (Ascii.ascii_of_nat 34) "))").
  now rewrite (read_plain_literal_append text "))" Hplain).
Qed.

(** A text with a double quote in it is outside what the statement below
    covers: the script built from it does not read back as the text. *)
Lemma quoted_text_is_not_spoken_as_it_is :
  let text := "say " +:+ Main.dquote +:+ "hi" +:+ Main.dquote in
  Main.js_plain text = false /\
  Main.spoken (Main.speak_script text) = None.
Proof. split; reflexivity. Qed.

(** C5, amended.  In [src/main.py], for a speak step whose text is not
    empty and needs no escaping inside a double-quoted script literal (no
    double quote, backslash or line break), speech synthesis is invoked
    exactly once with that literal text: the step makes exactly one
    [page.evaluate] call, on the one call of [speechSynthesis.speak] whose
    utterance literal reads back as the text; when that call returns, the
    fixed ten-second sleep follows and the elapsed time reported covers
    it.  In the package entry point no step evaluates anything in the
    page. *)
Theorem speak_step_speaks_its_plain_text_once
    (st : Main.step) (text : string) (w : world)
    (py_int : string -> option Z) (pst : Package.Step) :
  st !! "action" = Some "speak" ->
  st !! "text" = Some text ->
  text <> EmptyString ->
  Main.js_plain text = true ->
  let r := Main.execute_step st w in
  (exists script,
     evaluated (trace r) = [script] /\
     Main.spoken script = Some text) /\
  (failure (next_outcome w) = None ->
   exists script elapsed,
     outcome_of r = Ok tt /\
     trace r =
       [Print (Main.Speaking text); Evaluate script;
        Sleep (10 * 1000); Print (Main.ElapsedTime elapsed)] /\
     10 * 1000 <= elapsed /\
     clock (final r) = clock w + elapsed) /\
  evaluated (trace (Package.run_step py_int pst w)) = [].
Proof.
  intros Hact Htxt Hne Hplain r.
  pose proof (MainFacts.truthy_present _ _ Htxt Hne) as Htruthy.
  pose proof (MainFacts.execute_step_speak st text w Hact Htruthy) as E.
  fold r in E. cbv zeta in E.
  split; [|split].
  - exists (Main.speak_script text).
    split; [|exact (plain_text_is_spoken_as_it_is text Hplain)].
    rewrite E. now destruct (failure (next_outcome w)).
  - intros Hok. rewrite Hok in E. rewrite E.
    exists (Main.speak_script text). eexists.
    split; [reflexivity|]. split; [reflexivity|].
    change Main.speech_wait with (10 * 1000). cbn. split; lia.
  - apply evaluated_none.
    eapply Forall_impl; [apply (PackageFacts.run_step_offline py_int pst w)|].
    intros [] He s; try discriminate; destruct He.
Qed.

Lemma speak_step_speaks_its_plain_text_once_witness :
  (exists script,
     evaluated (trace (Main.execute_step speak_hello (starting [passes 12])))
       = [script] /\
     Main.spoken script = Some "hello") /\
  evaluated (trace (Package.run_step sample_int pkg_say (starting [passes 12])))
    = [].
Proof.
  destruct (speak_step_speaks_its_plain_text_once
              speak_hello "hello" (starting [passes 12]) sample_int pkg_say
              eq_refl eq_refl ltac:(discriminate) eq_refl)
    as (Hm & _ & Hp).
  split; [exact Hm|exact Hp].
Defined.

(** ** Instrumentation *)


(** The whole trace of the injection of [src/main.py]: file by file, the
    call and then the line that says how it went. *)
Lemma main_injection_trace (js_files : list string) (w : world) :
  trace (Main.inject_javascript_files js_files w) =
    Main.injection_events js_files (oracle w).
Proof.
  revert w. induction js_files as [|f rest IH]; intros w; [reflexivity|].
  unfold Main.inject_javascript_files. simpl for_each.
  fold (Main.inject_javascript_files rest).
  set (w1 := advance w (Z.of_N (took (next_outcome w)))).
  specialize (IH w1).
  unfold bind at 1, try_except, bind, call, print. fold w1.
  change (hd calm (oracle w)) with (next_outcome w).
  cbn [Main.injection_events].
  change (hd calm (oracle w)) with (next_outcome w).
  change (tail (oracle w)) with (oracle w1).
  destruct (failure (next_outcome w)) as [e|];
    destruct (Main.inject_javascript_files rest w1) as [[r t] w2];
    cbn [trace fst snd] in *; now rewrite <- IH.
Qed.



(** ** Launch and configuration failures *)

(** C9, as stated, fails on its last part: the loop over the scenarios
    sits inside one guarded block, so a browser that does not start for
    the first scenario ends the run and the second scenario is never
    started. *)
Lemma launch_failure_stops_the_remaining_scenarios :
  let r :=
    Package.run pkg_dir host_fs sample_int "scenarios/scenarios.yaml"
      (Package.Loaded {| Package.scenarios := [greeting; farewell] |})
      (starting [raises no_browser 100]) in
  trace r =
    [Print (Package.LoadingConfiguration "scenarios/scenarios.yaml");
     Print (Package.RunningScenario "greeting");
     Launch false [];
     Print (Package.UnexpectedError no_browser)] /\
  ~ In (Print (Package.RunningScenario "farewell")) (trace r).
Proof.
  split; [reflexivity|]. vm_compute.
  intros [H|[H|[H|[H|[]]]]]; discriminate H.
Qed.

(** C9, amended.  A configuration that fails to load ends the run before
    any browser is launched: only the loading line and the failure line are
    printed.  A browser that fails to start for a scenario leaves that
    scenario with no page, no steps and nothing to close, and ends the
    whole run there: the scenarios before it have run, the failure is
    printed once, and the scenarios after it are not started. *)
Theorem launch_failure_ends_the_run
    (here : string) (fs : string -> option Package.entry)
    (py_int : string -> option Z) (config_file : string)
    (before : list Package.Scenario) (sc : Package.Scenario)
    (after : list Package.Scenario)
    (w w' : world) (t : list (event Package.log)) (e e0 : exn) :
  for_each before (Package.run_scenario here fs py_int) w = (Ok tt, t, w') ->
  failure (next_outcome w') = Some e ->
  Package.run here fs py_int config_file (Package.LoadRaised e0) w =
    (Ok tt,
     [Print (Package.LoadingConfiguration config_file);
      Print (Package.failure_line config_file e0)],
     w) /\
  Package.run here fs py_int config_file
    (Package.Loaded {| Package.scenarios := before ++ sc :: after |}) w =
    (Ok tt,
     Print (Package.LoadingConfiguration config_file)
       :: t
       ++ [Print (Package.RunningScenario (Package.name sc));
           Launch false [];
           Print (Package.failure_line config_file e)],
     advance w' (Z.of_N (took (next_outcome w')))).
Proof.
  intros Hbefore Hlaunch. split.
  - apply PackageFacts.run_load_raised.
  - now apply PackageFacts.run_launch_raised.
Qed.

Lemma launch_failure_ends_the_run_witness :
  let w :=
    starting [passes 900; passes 40; passes 350; passes 4; passes 60;
              raises no_browser 100] in
  let first := for_each [farewell]
                 (Package.run_scenario pkg_dir host_fs sample_int) w in
  trace
    (Package.run pkg_dir host_fs sample_int "scenarios/scenarios.yaml"
       (Package.Loaded
          {| Package.scenarios := [farewell] ++ greeting :: [farewell] |})
       w) =
    Print (Package.LoadingConfiguration "scenarios/scenarios.yaml")
      :: trace first
      ++ [Print (Package.RunningScenario "greeting");
          Launch false [];
          Print (Package.UnexpectedError no_browser)].
Proof.
  intros w first.
  destruct (launch_failure_ends_the_run
              pkg_dir host_fs sample_int "scenarios/scenarios.yaml"
              [farewell] greeting [farewell]
              w (final first) (trace first) no_browser no_browser
              eq_refl eq_refl) as [_ E].
  rewrite E. reflexivity.
Defined.

(** * Further properties of the two entry points *)

(** ** More on the runtime *)

Section RuntimeMore.
Context {L : Type}.
Implicit Types (w : world) (t : list (event L)).

(** A sequence that returns: both halves returned, one after the other. *)
Lemma bind_returns_inv {A B} (m : M L A) (k : A -> M L B) w b :
  outcome_of (bind m k w) = Ok b ->
  exists a,
    outcome_of (m w) = Ok a /\
    outcome_of (k a (final (m w))) = Ok b /\
    trace (bind m k w) = trace (m w) ++ trace (k a (final (m w))).
Proof.
  unfold bind. destruct (m w) as [[[a|e] t] w1]; [|discriminate].
  destruct (k a w1) as [[r t'] w2] eqn:Ek. cbn. intros ->.
  exists a. rewrite Ek. now repeat split.
Qed.

Lemma launches_app t1 t2 :
  launches (t1 ++ t2) = (launches t1 + launches t2)%nat.
Proof. unfold launches. now rewrite filter_app, length_app. Qed.

Lemma launches_none t :
  Forall (fun e => is_launch e = false) t -> launches t = 0%nat.
Proof.
  induction 1 as [|e t He _ IH]; [reflexivity|].
  unfold launches in *. rewrite filter_cons.
  destruct (decide (is_launch e = true)) as [Hc|_]; [congruence|exact IH].
Qed.

Lemma never_raises_advance w ms : never_raises w -> never_raises (advance w ms).
Proof.
  unfold never_raises, advance. cbn. destruct (oracle w) as [|o os]; cbn.
  - constructor.
  - now inversion 1.
Qed.

Lemma never_raises_next w : never_raises w -> failure (next_outcome w) = None.
Proof.
  unfold never_raises, next_outcome. destruct (oracle w) as [|o os].
  - reflexivity.
  - now inversion 1.
Qed.

(** [tame], combinator by combinator. *)
Lemma tame_ret {A} (a : A) : tame (L := L) (ret a).
Proof. now intros w. Qed.

Lemma tame_raise {A} (e : exn) : tame (L := L) (raise (A := A) e).
Proof. now intros w. Qed.

Lemma tame_print (l : L) : tame (print l).
Proof. now intros w. Qed.

Lemma tame_sleep (ms : Z) : tame (L := L) (sleep ms).
Proof. intros w Hw. now apply never_raises_advance. Qed.

Lemma tame_call (e : event L) : tame (call e).
Proof.
  intros w Hw. unfold call.
  destruct (failure (next_outcome w)); now apply never_raises_advance.
Qed.

Lemma tame_bind {A B} (m : M L A) (k : A -> M L B) :
  tame m -> (forall a, tame (k a)) -> tame (bind m k).
Proof.
  intros Hm Hk w Hw. unfold bind. specialize (Hm w Hw).
  destruct (m w) as [[[a|e] t] w1]; [|exact Hm].
  specialize (Hk a w1 Hm). now destruct (k a w1) as [[r t'] w2].
Qed.

Lemma tame_for_each {A} (xs : list A) (body : A -> M L unit) :
  (forall x, tame (body x)) -> tame (for_each xs body).
Proof.
  intros Hb. induction xs as [|x xs IH]; simpl.
  - apply tame_ret.
  - apply tame_bind; [apply Hb|intros _; exact IH].
Qed.

(** [steady], combinator by combinator. *)
Lemma steady_tame {A} (m : M L A) : steady m -> tame m.
Proof. intros Hm w Hw. now destruct (Hm w Hw). Qed.

Lemma steady_ret {A} (a : A) : steady (L := L) (ret a).
Proof. intros w Hw. split; [now exists a|exact Hw]. Qed.

Lemma steady_now : steady (L := L) now.
Proof. intros w Hw. split; [now eexists|exact Hw]. Qed.

Lemma steady_print (l : L) : steady (print l).
Proof. intros w Hw. split; [now exists tt|exact Hw]. Qed.

Lemma steady_on_console : steady (L := L) on_console.
Proof. intros w Hw. split; [now exists tt|exact Hw]. Qed.

Lemma steady_sleep (ms : Z) : steady (L := L) (sleep ms).
Proof.
  intros w Hw. split; [now exists tt|now apply never_raises_advance].
Qed.

Lemma steady_call (e : event L) : steady (call e).
Proof.
  intros w Hw. unfold call. rewrite (never_raises_next w Hw).
  split; [now exists tt|now apply never_raises_advance].
Qed.

Lemma steady_bind {A B} (m : M L A) (k : A -> M L B) :
  steady m -> (forall a, steady (k a)) -> steady (bind m k).
Proof.
  intros Hm Hk w Hw. unfold bind. destruct (Hm w Hw) as [[a Ha] Hw1].
  destruct (m w) as [[r t] w1]. cbn in Ha, Hw1. subst r.
  destruct (Hk a w1 Hw1) as [[b Hb] Hw2].
  destruct (k a w1) as [[r t'] w2]. cbn in *. split; [now exists b|exact Hw2].
Qed.

(** A guarded block is steady as soon as what it guards is tame: the
    handler takes care of what was raised. *)
Lemma steady_try_except {A} (m : M L A) (h : exn -> M L A) :
  tame m -> (forall e, steady (h e)) -> steady (try_except m h).
Proof.
  intros Hm Hh w Hw. unfold try_except. specialize (Hm w Hw).
  destruct (m w) as [[[a|e] t] w1]; cbn in Hm.
  - split; [now exists a|exact Hm].
  - destruct (Hh e w1 Hm) as [[b Hb] Hw2].
    destruct (h e w1) as [[r t'] w2]. cbn in *. split; [now exists b|exact Hw2].
Qed.

Lemma steady_for_each {A} (xs : list A) (body : A -> M L unit) :
  (forall x, steady (body x)) -> steady (for_each xs body).
Proof.
  intros Hb. induction xs as [|x xs IH]; simpl.
  - apply steady_ret.
  - apply steady_bind; [apply Hb|intros _; exact IH].
Qed.
End RuntimeMore.

Create HintDb tame discriminated.
Create HintDb steady discriminated.
#[export] Hint Resolve tame_ret tame_raise tame_print tame_sleep tame_call
  tame_bind tame_for_each : tame.
#[export] Hint Resolve steady_ret steady_now steady_print steady_on_console
  steady_sleep steady_call steady_bind steady_for_each : steady.

(** ** [src/main.py]: what a single step can and cannot do *)

Lemma is_str_true (a : option string) (k : string) :
  is_str a k = true -> a = Some k.
Proof.
  destruct a as [x|]; simpl; [|discriminate].
  intros H. apply String.eqb_eq in H. now subst.
Qed.

(** Splits [execute_step] into its branches, down to the oracle's answer
    to the one browser call a branch may make. *)
Ltac step_cases w :=
  unfold Main.execute_step; rewrite MainFacts.now_bind;
  repeat match goal with
         | |- context [if is_str ?a ?k then _ else _] =>
             destruct (is_str a k) eqn:?
         | |- context [match truthy ?v with _ => _ end] =>
             destruct (truthy v) eqn:?
         end;
  unfold bind, try_except, call, sleep, print, now, ret;
  destruct (failure (next_outcome w)) eqn:?;
  cbn.

(** X1. The only steps that can raise are wait and speak steps, and they
    raise exactly what their one browser call raised. *)
Theorem execute_step_raises_only_from_wait_or_speak
    (st : Main.step) (w : world) (e : exn) :
  outcome_of (Main.execute_step st w) = Raise e ->
  (st !! "action" = Some "wait" \/ st !! "action" = Some "speak") /\
  failure (next_outcome w) = Some e.
Proof.
  step_cases w; intros H; try discriminate H; injection H as <-;
    (split; [|reflexivity]);
    match goal with
    | Hk : is_str _ "wait" = true |- _ => left; exact (is_str_true _ _ Hk)
    | Hk : is_str _ "speak" = true |- _ => right; exact (is_str_true _ _ Hk)
    end.
Qed.

Lemma execute_step_raises_only_from_wait_or_speak_witness :
  (wait_agent !! "action" = Some "wait" \/
   wait_agent !! "action" = Some "speak") /\
  failure (next_outcome (starting [raises timeout 30000])) = Some timeout.
Proof.
  apply (execute_step_raises_only_from_wait_or_speak
           wait_agent (starting [raises timeout 30000]) timeout).
  reflexivity.
Defined.

(** X2. Timing: a step that returns reports exactly one elapsed time, and
    it is the time that went by on the clock across the step; a step that
    raises reports none. *)
Theorem execute_step_reports_the_clock_difference
    (st : Main.step) (w : world) :
  let r := Main.execute_step st w in
  match outcome_of r with
  | Ok _ => Main.elapsed_lines (trace r) = [clock (final r) - clock w]
  | Raise _ => Main.elapsed_lines (trace r) = []
  end.
Proof.
  cbv zeta. step_cases w; try reflexivity; repeat f_equal; lia.
Qed.

(** X3. A click or wait step whose element is missing or empty never
    reaches the page.  A click step prints the line "Error: No element
    specified for click action" ([Main.NoElementForClick]) and a wait step
    the line "Error: No element specified for wait action"
    ([Main.NoElementForWait]); each then reports an elapsed time of zero
    and returns: these two lines are the whole trace, and oracle and clock
    are as they were. *)
Theorem step_without_element_never_reaches_the_page
    (st : Main.step) (w : world) :
  st !! "element" = None \/ st !! "element" = Some EmptyString ->
  (st !! "action" = Some "click" ->
   Main.execute_step st w =
     (Ok tt, [Print Main.NoElementForClick; Print (Main.ElapsedTime 0)], w)) /\
  (st !! "action" = Some "wait" ->
   Main.execute_step st w =
     (Ok tt, [Print Main.NoElementForWait; Print (Main.ElapsedTime 0)], w)).
Proof.
  intros Helt. apply MainFacts.truthy_absent in Helt.
  split; intros Hact.
  - now apply MainFacts.execute_step_click_no_element.
  - now apply MainFacts.execute_step_wait_no_element.
Qed.

Lemma step_without_element_never_reaches_the_page_witness :
  Main.execute_step {[ "action" := "click" ]} (starting [raises timeout 9]) =
    (Ok tt, [Print Main.NoElementForClick; Print (Main.ElapsedTime 0)],
     starting [raises timeout 9]) /\
  Main.execute_step
    (<[ "element" := EmptyString ]> {[ "action" := "wait" ]})
    (starting [raises timeout 9]) =
    (Ok tt, [Print Main.NoElementForWait; Print (Main.ElapsedTime 0)],
     starting [raises timeout 9]).
Proof.
  split.
  - apply (step_without_element_never_reaches_the_page
             {[ "action" := "click" ]} (starting [raises timeout 9]));
      [left|]; reflexivity.
  - apply (step_without_element_never_reaches_the_page
             (<[ "element" := EmptyString ]> {[ "action" := "wait" ]})
             (starting [raises timeout 9]));
      [right|]; reflexivity.
Defined.

(** X4. A wait step with a selector makes one [waitForSelector] call and
    no sleep of its own; when the call returns, the elapsed time reported
    is the time the call took and the loop goes on with the steps after
    it. *)
Theorem wait_step_waits_for_its_selector
    (st : Main.step) (element : string) (w : world) :
  st !! "action" = Some "wait" ->
  st !! "element" = Some element ->
  element <> EmptyString ->
  failure (next_outcome w) = None ->
  let w1 := advance w (Z.of_N (took (next_outcome w))) in
  Main.execute_step st w =
    (Ok tt,
     [Print (Main.WaitingForElement element); WaitForSelector element;
      Print (Main.ElapsedTime (Z.of_N (took (next_outcome w))))],
     w1) /\
  forall i rest,
    Main.run_steps ((i, st) :: rest) w =
      (outcome_of (Main.run_steps rest w1),
       [Print (Main.ExecutingStep i st);
        Print (Main.WaitingForElement element); WaitForSelector element;
        Print (Main.ElapsedTime (Z.of_N (took (next_outcome w))))]
         ++ trace (Main.run_steps rest w1),
       final (Main.run_steps rest w1)).
Proof.
  intros Hact Helt Hne Hok w1.
  pose proof (MainFacts.execute_step_wait st element w Hact
                (MainFacts.truthy_present _ _ Helt Hne)) as E.
  cbv zeta in E. rewrite Hok in E. fold w1 in E.
  split; [exact E|].
  intros i rest. exact (MainFacts.run_steps_cons_ok i st rest w w1 _ E).
Qed.

Lemma wait_step_waits_for_its_selector_witness :
  Main.execute_step wait_agent (starting [passes 1200]) =
    (Ok tt,
     [Print (Main.WaitingForElement "#agent"); WaitForSelector "#agent";
      Print (Main.ElapsedTime 1200)],
     advance (starting [passes 1200]) 1200).
Proof.
  apply (wait_step_waits_for_its_selector
           wait_agent "#agent" (starting [passes 1200])
           eq_refl eq_refl ltac:(discriminate) eq_refl).
Defined.

(** ** [src/main.py]: the scenario as a whole *)

Lemma closes_bind_ge {L A B} (m : M L A) (k : A -> M L B) (n : nat)
    (w : world) (b : B) :
  outcome_of (bind m k w) = Ok b ->
  (forall a w', outcome_of (k a w') = Ok b ->
                (n <= closes (trace (k a w')))%nat) ->
  (n <= closes (trace (bind m k w)))%nat.
Proof.
  intros Hok Hk. destruct (bind_returns_inv m k w b Hok) as (a & _ & Hb & ->).
  rewrite closes_app. specialize (Hk a _ Hb). lia.
Qed.

(** X5. [run_scenario] of [src/main.py] never raises.  It closes the
    browser at most once, and whenever it has not closed it the last line
    it prints is the scenario error. *)
Theorem main_scenario_returns_and_reports_an_unclosed_browser
    (cfg : Main.settings) (js_files : list string) (url : string)
    (steps : list Main.step) (w : world) :
  let r := Main.run_scenario cfg js_files url steps w in
  outcome_of r = Ok tt /\
  (closes (trace r) = 1%nat \/
   closes (trace r) = 0%nat /\
   exists t e, trace r = t ++ [Print (Main.ErrorRunningScenario e)]).
Proof.
  intros r.
  pose proof (main_closes_at_most_once cfg js_files url steps w) as Hle.
  fold r in Hle. subst r. unfold Main.run_scenario, try_except in *.
  match goal with
  | |- context [match ?body w with _ => _ end] =>
      assert (Hge : forall u, outcome_of (body w) = Ok u ->
                              (1 <= closes (trace (body w)))%nat);
      [|destruct (body w) as [[[[]|e] t] w1]]
  end.
  - intros u Hok.
    repeat (eapply closes_bind_ge; [eassumption|]; clear Hok; intros ? ? Hok).
    rewrite (proj2 (call_trace Close _)). reflexivity.
  - cbn [outcome_of trace fst snd] in *. split; [reflexivity|].
    left. specialize (Hge tt eq_refl). lia.
  - unfold print in *. cbn [outcome_of trace fst snd] in *.
    split; [reflexivity|].
    destruct (closes (t ++ [Print (Main.ErrorRunningScenario e)]))
      as [|[|n]] eqn:Hc.
    + right. split; [reflexivity|]. now exists t, e.
    + now left.
    + lia.
Qed.

Lemma main_execute_step_steady (st : Main.step) : steady (Main.execute_step st).
Proof.
  unfold Main.execute_step.
  repeat first
    [ apply steady_bind; [|intros ?]
    | apply steady_try_except; [|intros ?]
    | match goal with
      | |- context [if ?b then _ else _] => destruct b
      | |- context [match truthy ?v with _ => _ end] => destruct (truthy v)
      end
    | solve [auto with steady tame] ].
Qed.

Lemma main_run_steps_steady (numbered : list (nat * Main.step)) :
  steady (Main.run_steps numbered).
Proof.
  apply steady_for_each. intros [i st].
  apply steady_bind; [apply steady_print|intros _].
  apply main_execute_step_steady.
Qed.

Lemma main_inject_steady (js_files : list string) :
  steady (Main.inject_javascript_files js_files).
Proof.
  apply steady_for_each. intros f.
  apply steady_try_except; [auto with tame|intros e; apply steady_print].
Qed.

Lemma main_dispatched_none (t : list (event Main.log)) :
  Forall (fun ev => forall i st, ev <> Print (Main.ExecutingStep i st)) t ->
  Main.dispatched t = [].
Proof.
  induction 1 as [|ev t Hev _ IH]; [reflexivity|].
  destruct ev as [[]| | | | | | | | | |]; simpl; try exact IH.
  now destruct (Hev i st).
Qed.

Lemma main_inject_dispatches_nothing (js_files : list string) (w : world) :
  Main.dispatched (trace (Main.inject_javascript_files js_files w)) = [].
Proof.
  apply main_dispatched_none. revert w.
  change (emits_only
            (fun ev => forall i st, ev <> Print (Main.ExecutingStep i st))
            (Main.inject_javascript_files js_files)).
  apply emits_only_for_each. intros f.
  apply emits_only_try_except; [|intros e; now apply emits_only_print].
  apply emits_only_bind; [now apply emits_only_call|intros _].
  now apply emits_only_print.
Qed.



(** X7. When the page cannot be reached, a scenario of [src/main.py] does
    nothing more: no script is injected, no step is dispatched, the error
    is printed, and the browser that was launched is left open. *)
Theorem main_navigation_failure_ends_the_scenario_unclosed
    (cfg : Main.settings) (js_files : list string) (url : string)
    (steps : list Main.step) (w : world) (e : exn) :
  let w1 := advance w (Z.of_N (took (next_outcome w))) in
  let w2 := advance w1 (Z.of_N (took (next_outcome w1))) in
  failure (next_outcome w) = None ->
  failure (next_outcome w1) = None ->
  failure (next_outcome w2) = Some e ->
  Main.run_scenario cfg js_files url steps w =
    (Ok tt,
     [Launch (Main.headless cfg) Main.launch_flags; NewPage]
       ++ (if Main.verbose cfg then [OnConsole] else [])
       ++ [Goto url; Print (Main.ErrorRunningScenario e)],
     advance w2 (Z.of_N (took (next_outcome w2)))).
Proof.
  intros w1 w2 Hlaunch Hpage Hgoto. unfold Main.run_scenario, try_except.
  rewrite (call_bind_ok _ _ _ Hlaunch). cbv zeta. fold w1.
  rewrite (call_bind_ok _ _ _ Hpage). cbv zeta. fold w2.
  destruct (Main.verbose cfg).
  - rewrite on_console_bind, (call_bind_raise _ _ _ _ Hgoto). reflexivity.
  - rewrite ret_bind, (call_bind_raise _ _ _ _ Hgoto). reflexivity.
Qed.

Lemma main_navigation_failure_ends_the_scenario_unclosed_witness :
  Main.run_scenario cfg listing page_url [click_start]
    (starting [passes 900; passes 40; raises timeout 30000]) =
    (Ok tt,
     [Launch true Main.launch_flags; NewPage; Goto page_url;
      Print (Main.ErrorRunningScenario timeout)],
     {| oracle := []; clock := 30940 |}).
Proof.
  apply (main_navigation_failure_ends_the_scenario_unclosed
           cfg listing page_url [click_start]
           (starting [passes 900; passes 40; raises timeout 30000]) timeout
           eq_refl eq_refl eq_refl).
Defined.

(** X8. Injection in [src/main.py] handles the files one by one: a file
    gets its [addScriptTag] call, then either the line naming its base
    name or, when the call raised, the error line naming its path, and in
    both cases the files after it are handled as if nothing had happened. *)
Theorem main_injection_reports_each_file_and_goes_on
    (js_file : string) (rest : list string) (w : world) :
  let o := next_outcome w in
  let w1 := advance w (Z.of_N (took o)) in
  Main.inject_javascript_files (js_file :: rest) w =
    (outcome_of (Main.inject_javascript_files rest w1),
     [AddScriptTag js_file;
      Print (match failure o with
             | Some e => Main.ErrorInjecting js_file e
             | None => Main.Injected (Main.basename js_file)
             end)]
       ++ trace (Main.inject_javascript_files rest w1),
     final (Main.inject_javascript_files rest w1)).
Proof.
  intros o w1. unfold Main.inject_javascript_files. simpl for_each.
  fold (Main.inject_javascript_files rest).
  unfold bind at 1, try_except, bind, call, print. fold o. fold w1.
  destruct (failure o) as [e|];
    destruct (Main.inject_javascript_files rest w1) as [[r t] w2];
    reflexivity.
Qed.

(** ** [src/voice_agent_tester/__main.py]: one scenario *)

(** X9. Once the browser and the page of a scenario exist, closing the
    browser is the last thing the scenario does, and it does it exactly
    once, whatever happened to navigation, injection and the steps. *)
Theorem package_scenario_ends_by_closing_the_browser
    (here : string) (fs : string -> option Package.entry)
    (py_int : string -> option Z) (sc : Package.Scenario) (w : world) :
  let w1 := advance w (Z.of_N (took (next_outcome w))) in
  failure (next_outcome w) = None ->
  failure (next_outcome w1) = None ->
  exists t,
    trace (Package.run_scenario here fs py_int sc w) = t ++ [Close] /\
    closes t = 0%nat.
Proof.
  intros w1 Hlaunch Hpage.
  rewrite (PackageFacts.run_scenario_with_session here fs py_int sc w
             Hlaunch Hpage).
  eexists. split; [now rewrite app_assoc|].
  rewrite closes_app.
  now rewrite (closes_none _
                 (PackageFacts.guarded_body_keeps_browser here fs py_int sc _)).
Qed.

Lemma package_scenario_ends_by_closing_the_browser_witness :
  exists t,
    trace (Package.run_scenario pkg_dir host_fs sample_int greeting
             (starting [passes 900; passes 40; raises timeout 30000])) =
      t ++ [Close] /\
    closes t = 0%nat.
Proof.
  apply (package_scenario_ends_by_closing_the_browser
           pkg_dir host_fs sample_int greeting
           (starting [passes 900; passes 40; raises timeout 30000])
           eq_refl eq_refl).
Defined.

(** X10. A scenario of the package raises only through the launch, the
    opening of the page, or the closing of the browser; a failure of
    navigation, of an injection or of a step never leaves it. *)
Theorem package_scenario_raises_only_at_launch_page_or_close
    (here : string) (fs : string -> option Package.entry)
    (py_int : string -> option Z) (sc : Package.Scenario) (w : world) :
  let w1 := advance w (Z.of_N (took (next_outcome w))) in
  let w2 := advance w1 (Z.of_N (took (next_outcome w1))) in
  let guarded :=
    try_except (Package.scenario_body here fs py_int sc)
      (fun e => print (Package.ScenarioError e)) w2 in
  outcome_of (Package.run_scenario here fs py_int sc w) =
    match failure (next_outcome w) with
    | Some e => Raise e
    | None =>
        match failure (next_outcome w1) with
        | Some e => Raise e
        | None =>
            match failure (next_outcome (final guarded)) with
            | Some e => Raise e
            | None => Ok tt
            end
        end
    end.
Proof.
  intros w1 w2 guarded. unfold Package.run_scenario. rewrite print_bind.
  cbn [outcome_of fst].
  destruct (failure (next_outcome w)) as [e|] eqn:Hlaunch.
  { now rewrite (call_bind_raise _ _ _ _ Hlaunch). }
  rewrite (call_bind_ok _ _ _ Hlaunch). cbv zeta. fold w1. cbn [outcome_of fst].
  destruct (failure (next_outcome w1)) as [e|] eqn:Hpage.
  { now rewrite (call_bind_raise _ _ _ _ Hpage). }
  rewrite (call_bind_ok _ _ _ Hpage). cbv zeta. fold w2. cbn [outcome_of fst].
  rewrite on_console_bind. cbn [outcome_of fst].
  unfold try_finally. fold guarded.
  pose proof (PackageFacts.guarded_body_returns here fs py_int sc w2) as Hg.
  fold guarded in Hg. destruct guarded as [[r t] w3]. cbn in Hg. subst r.
  unfold call, final. cbn [snd].
  now destruct (failure (next_outcome w3)).
Qed.

(** X11. When the page cannot be opened, the scenario raises with the
    browser launched and never closed: the [finally] that closes it is
    not yet in force. *)
Theorem package_page_failure_leaves_the_browser_open
    (here : string) (fs : string -> option Package.entry)
    (py_int : string -> option Z) (sc : Package.Scenario) (w : world)
    (e : exn) :
  let w1 := advance w (Z.of_N (took (next_outcome w))) in
  failure (next_outcome w) = None ->
  failure (next_outcome w1) = Some e ->
  Package.run_scenario here fs py_int sc w =
    (Raise e,
     [Print (Package.RunningScenario (Package.name sc));
      Launch false []; NewPage],
     advance w1 (Z.of_N (took (next_outcome w1)))).
Proof.
  intros w1 Hlaunch Hpage. unfold Package.run_scenario.
  rewrite print_bind, (call_bind_ok _ _ _ Hlaunch). cbv zeta. fold w1.
  rewrite (call_bind_raise _ _ _ _ Hpage). reflexivity.
Qed.

Lemma package_page_failure_leaves_the_browser_open_witness :
  Package.run_scenario pkg_dir host_fs sample_int greeting
    (starting [passes 900; raises no_browser 100]) =
    (Raise no_browser,
     [Print (Package.RunningScenario "greeting"); Launch false []; NewPage],
     {| oracle := []; clock := 1000 |}).
Proof.
  apply (package_page_failure_leaves_the_browser_open
           pkg_dir host_fs sample_int greeting
           (starting [passes 900; raises no_browser 100]) no_browser
           eq_refl eq_refl).
Defined.

(** X12. When navigation raises in the package, nothing is injected and
    no step is entered: the error is printed and the browser is closed. *)
Theorem package_navigation_failure_skips_injection_and_steps
    (here : string) (fs : string -> option Package.entry)
    (py_int : string -> option Z) (sc : Package.Scenario) (w : world)
    (e : exn) :
  let w1 := advance w (Z.of_N (took (next_outcome w))) in
  let w2 := advance w1 (Z.of_N (took (next_outcome w1))) in
  failure (next_outcome w) = None ->
  failure (next_outcome w1) = None ->
  failure (next_outcome w2) = Some e ->
  trace (Package.run_scenario here fs py_int sc w) =
    [Print (Package.RunningScenario (Package.name sc));
     Launch false []; NewPage; OnConsole;
     Print (Package.NavigatingTo (Package.url sc)); Goto (Package.url sc);
     Print (Package.ScenarioError e);
     Close].
Proof.
  intros w1 w2 Hlaunch Hpage Hgoto.
  rewrite (PackageFacts.run_scenario_with_session here fs py_int sc w
             Hlaunch Hpage).
  fold w1. fold w2. unfold try_except, Package.scenario_body.
  rewrite print_bind, (call_bind_raise _ _ _ _ Hgoto). reflexivity.
Qed.

Lemma package_navigation_failure_skips_injection_and_steps_witness :
  trace (Package.run_scenario pkg_dir host_fs sample_int greeting
           (starting [passes 900; passes 40; raises timeout 30000])) =
    [Print (Package.RunningScenario "greeting");
     Launch false []; NewPage; OnConsole;
     Print (Package.NavigatingTo page_url); Goto page_url;
     Print (Package.ScenarioError timeout);
     Close].
Proof.
  apply (package_navigation_failure_skips_injection_and_steps
           pkg_dir host_fs sample_int greeting
           (starting [passes 900; passes 40; raises timeout 30000]) timeout
           eq_refl eq_refl eq_refl).
Defined.

Lemma inject_asset_raises {B} (fs : string -> option Package.entry)
    (path : string) (announce warning : Package.log)
    (k : unit -> M Package.log B) (w : world) (content : string) (e : exn) :
  fs path = Some (Package.Text content) ->
  failure (next_outcome w) = Some e ->
  bind (Package.inject_asset fs path announce warning) k w =
    (Raise e,
     [Print announce; Evaluate content],
     advance w (Z.of_N (took (next_outcome w)))).
Proof.
  intros Hfs Heval. apply bind_raise.
  unfold Package.inject_asset, Package.path_exists, Package.read_text.
  rewrite Hfs, ret_bind, print_bind. unfold call. rewrite Heval.
  reflexivity.
Qed.

(** X13. An evaluation error is not isolated in the package: when
    evaluating the audio-output hooks raises, the input hooks and the
    scenario script are not injected and no step is entered; the error is
    printed and the browser is closed. *)
Theorem package_injection_failure_skips_the_rest
    (here : string) (fs : string -> option Package.entry)
    (py_int : string -> option Z) (sc : Package.Scenario) (w : world)
    (content : string) (e : exn) :
  let w1 := advance w (Z.of_N (took (next_outcome w))) in
  let w2 := advance w1 (Z.of_N (took (next_outcome w1))) in
  let w3 := advance w2 (Z.of_N (took (next_outcome w2))) in
  fs (Package.audio_hooks_path here) = Some (Package.Text content) ->
  failure (next_outcome w) = None ->
  failure (next_outcome w1) = None ->
  failure (next_outcome w2) = None ->
  failure (next_outcome w3) = Some e ->
  trace (Package.run_scenario here fs py_int sc w) =
    [Print (Package.RunningScenario (Package.name sc));
     Launch false []; NewPage; OnConsole;
     Print (Package.NavigatingTo (Package.url sc)); Goto (Package.url sc);
     Print Package.InjectingAudioOutputHooks; Evaluate content;
     Print (Package.ScenarioError e);
     Close].
Proof.
  intros w1 w2 w3 Hfs Hlaunch Hpage Hgoto Heval.
  rewrite (PackageFacts.run_scenario_with_session here fs py_int sc w
             Hlaunch Hpage).
  fold w1. fold w2. unfold try_except, Package.scenario_body.
  rewrite print_bind, (call_bind_ok _ _ _ Hgoto). cbv zeta. fold w3.
  rewrite (inject_asset_raises fs _ _ _ _ w3 content e Hfs Heval).
  reflexivity.
Qed.

Lemma package_injection_failure_skips_the_rest_witness :
  trace (Package.run_scenario pkg_dir host_fs sample_int greeting
           (starting [passes 900; passes 40; passes 350;
                      raises timeout 30000])) =
    [Print (Package.RunningScenario "greeting");
     Launch false []; NewPage; OnConsole;
     Print (Package.NavigatingTo page_url); Goto page_url;
     Print Package.InjectingAudioOutputHooks;
     Evaluate "window.__audioOut = [];";
     Print (Package.ScenarioError timeout);
     Close].
Proof.
  apply (package_injection_failure_skips_the_rest
           pkg_dir host_fs sample_int greeting
           (starting [passes 900; passes 40; passes 350;
                      raises timeout 30000])
           "window.__audioOut = [];" timeout
           eq_refl eq_refl eq_refl eq_refl eq_refl).
Defined.

(** ** [src/voice_agent_tester/__main.py]: the steps *)

(** X14. A wait step of the package whose value is a number of seconds
    between zero and the most [time.sleep] can convert (9223372036), given
    as a number or as a string that [int] accepts, sleeps for that long
    when the operating system accepts the sleep: at least that much time
    goes by, and the step returns without touching the browser. *)
Theorem package_wait_sleeps_for_its_value
    (py_int : string -> option Z) (st : Package.Step) (secs : Z) (w : world) :
  Package.action st = "wait" ->
  Package.value st = Package.Int secs \/
  (exists s, Package.value st = Package.Str s /\ py_int s = Some secs) ->
  0 <= secs <= 9223372036 ->
  failure (next_outcome w) = None ->
  exists w',
    Package.run_step py_int st w =
      (Ok tt,
       [Print (Package.ExecutingStep "wait" (Package.value st));
        Sleep (secs * 1000)],
       w') /\
    clock w + secs * 1000 <= clock w'.
Proof.
  intros Hact Hval Hsecs Hos. unfold Package.run_step, Package.int_of.
  rewrite Hact. cbn [String.eqb Ascii.eqb Bool.eqb].
  assert (Hrange : (secs <? - Package.sleep_limit)
                   || (Package.sleep_limit <? secs) = false).
  { change Package.sleep_limit with 9223372036. lia. }
  assert (Hlt : (secs <? 0) = false) by lia.
  destruct Hval as [->|(s & -> & Hs)]; [|rewrite Hs];
    unfold Package.time_sleep, bind, print, ret, Package.os_sleep;
    rewrite Hrange, Hlt, Hos;
    (eexists; split; [reflexivity|cbn; lia]).
Qed.

Lemma package_wait_sleeps_for_its_value_witness :
  exists w',
    Package.run_step sample_int
      {| Package.action := "wait"; Package.value := Package.Str "2" |}
      (starting [passes 3]) =
      (Ok tt,
       [Print (Package.ExecutingStep "wait" (Package.Str "2"));
        Sleep (2 * 1000)],
       w') /\
    clock (starting [passes 3]) + 2 * 1000 <= clock w'.
Proof.
  apply (package_wait_sleeps_for_its_value sample_int
           {| Package.action := "wait"; Package.value := Package.Str "2" |}
           2 (starting [passes 3]) eq_refl).
  - right. exists "2". split; reflexivity.
  - lia.
  - reflexivity.
Defined.

Lemma time_sleep_refuses (n : Z) (w : world) :
  n < 0 \/ 9223372036 < n ->
  exists e,
    cls e =
      (if (n <? - 9223372036) || (9223372036 <? n)
       then OtherError "OverflowError"
       else ValueError) /\
    Package.time_sleep n w = (Raise e, [], w).
Proof.
  intros Hbad. unfold Package.time_sleep.
  change (- Package.sleep_limit) with (-9223372036).
  change Package.sleep_limit with 9223372036.
  destruct ((n <? - 9223372036) || (9223372036 <? n)) eqn:Hrange.
  - eexists. split; [|reflexivity]. reflexivity.
  - assert (Hlt : (n <? 0) = true) by lia. rewrite Hlt.
    eexists. split; [|reflexivity]. reflexivity.
Qed.

(** X15. A wait step of the package with a bad value raises right after
    being announced, without sleeping, and the steps after it are not
    entered.  A string that [int] rejects and a negative number of seconds
    down to -9223372036 raise a [ValueError]; a number of seconds beyond
    9223372036 in either direction raises an [OverflowError], the
    conversion coming before the sign check. *)
Theorem package_wait_with_a_bad_value_raises
    (py_int : string -> option Z) (st : Package.Step)
    (rest : list Package.Step) (w : world) :
  Package.action st = "wait" ->
  let converted :=
    match Package.value st with
    | Package.Int n => Some n
    | Package.Str s => py_int s
    end in
  converted = None \/
  (exists secs, converted = Some secs /\ (secs < 0 \/ 9223372036 < secs)) ->
  exists e,
    cls e =
      match converted with
      | Some secs =>
          if (secs <? - 9223372036) || (9223372036 <? secs)
          then OtherError "OverflowError"
          else ValueError
      | None => ValueError
      end /\
    Package.run_step py_int st w =
      (Raise e, [Print (Package.ExecutingStep "wait" (Package.value st))], w) /\
    for_each (st :: rest) (Package.run_step py_int) w =
      (Raise e, [Print (Package.ExecutingStep "wait" (Package.value st))], w).
Proof.
  intros Hact converted Hbad.
  assert (Hstep : exists e,
            cls e =
              match converted with
              | Some secs =>
                  if (secs <? - 9223372036) || (9223372036 <? secs)
                  then OtherError "OverflowError"
                  else ValueError
              | None => ValueError
              end /\
            Package.run_step py_int st w =
              (Raise e,
               [Print (Package.ExecutingStep "wait" (Package.value st))], w)).
  { unfold Package.run_step, Package.int_of.
    rewrite Hact. cbn [String.eqb Ascii.eqb Bool.eqb].
    subst converted.
    destruct (Package.value st) as [s|n];
      [destruct (py_int s) as [n|] eqn:Hs|].
    - destruct Hbad as [Hnone|(secs & [= <-] & Hneg)]; [discriminate|].
      destruct (time_sleep_refuses n w Hneg) as (e & Hcls & E).
      exists e. split; [exact Hcls|].
      rewrite print_bind, ret_bind, E. reflexivity.
    - eexists. split; [|reflexivity]. reflexivity.
    - destruct Hbad as [Hnone|(secs & [= <-] & Hneg)]; [discriminate|].
      destruct (time_sleep_refuses n w Hneg) as (e & Hcls & E).
      exists e. split; [exact Hcls|].
      rewrite print_bind, ret_bind, E. reflexivity. }
  destruct Hstep as (e & Hcls & Hstep). exists e.
  split; [exact Hcls|]. split; [exact Hstep|].
  simpl for_each. now apply bind_raise.
Qed.

Lemma package_wait_with_a_bad_value_raises_witness :
  exists e,
    cls e = OtherError "OverflowError" /\
    Package.run_step sample_int
      {| Package.action := "wait";
         Package.value := Package.Int (-9223372037) |}
      (starting []) =
      (Raise e,
       [Print (Package.ExecutingStep "wait" (Package.Int (-9223372037)))],
       starting []) /\
    for_each
      [{| Package.action := "wait";
          Package.value := Package.Int (-9223372037) |};
       pkg_say]
      (Package.run_step sample_int) (starting []) =
      (Raise e,
       [Print (Package.ExecutingStep "wait" (Package.Int (-9223372037)))],
       starting []).
Proof.
  apply (package_wait_with_a_bad_value_raises sample_int
           {| Package.action := "wait";
              Package.value := Package.Int (-9223372037) |}
           [pkg_say] (starting []) eq_refl).
  right. exists (-9223372037). split; [reflexivity|lia].
Defined.

(** ** [src/voice_agent_tester/__main.py]: the run *)

(** X16. Whatever makes a scenario raise (the launch, the page, or the
    closing of the browser), the run stops with it: the scenarios before it
    have run, its failure is printed once by the run, the scenarios after
    it are not started, and the run itself returns. *)
Theorem run_stops_at_the_first_scenario_that_raises
    (here : string) (fs : string -> option Package.entry)
    (py_int : string -> option Z) (config_file : string)
    (before : list Package.Scenario) (sc : Package.Scenario)
    (after : list Package.Scenario)
    (w w' : world) (t : list (event Package.log)) (e : exn) :
  for_each before (Package.run_scenario here fs py_int) w = (Ok tt, t, w') ->
  outcome_of (Package.run_scenario here fs py_int sc w') = Raise e ->
  Package.run here fs py_int config_file
    (Package.Loaded {| Package.scenarios := before ++ sc :: after |}) w =
    (Ok tt,
     Print (Package.LoadingConfiguration config_file)
       :: t
       ++ trace (Package.run_scenario here fs py_int sc w')
       ++ [Print (Package.failure_line config_file e)],
     final (Package.run_scenario here fs py_int sc w')).
Proof.
  intros Hbefore Hraise. unfold Package.run.
  rewrite print_bind. unfold try_except. cbn [Package.scenarios].
  destruct (Package.run_scenario here fs py_int sc w')
    as [[r ts] ws] eqn:Esc. cbn in Hraise. subst r.
  rewrite (for_each_raise before after sc _ w t w' e ts ws Hbefore Esc).
  cbn. now rewrite <- app_assoc.
Qed.

Lemma run_stops_at_the_first_scenario_that_raises_witness :
  let w :=
    starting [passes 900; passes 40; passes 350; passes 4;
              raises no_browser 60] in
  trace
    (Package.run pkg_dir host_fs sample_int "scenarios/scenarios.yaml"
       (Package.Loaded
          {| Package.scenarios := [] ++ farewell :: [greeting] |})
       w) =
    Print (Package.LoadingConfiguration "scenarios/scenarios.yaml")
      :: []
      ++ trace (Package.run_scenario pkg_dir host_fs sample_int farewell w)
      ++ [Print (Package.UnexpectedError no_browser)].
Proof.
  intros w.
  rewrite (run_stops_at_the_first_scenario_that_raises
             pkg_dir host_fs sample_int "scenarios/scenarios.yaml"
             [] farewell [greeting] w w [] no_browser eq_refl eq_refl).
  reflexivity.
Defined.

Lemma ends_with_slash_append (a : string) (x : ascii) (b : string) :
  Package.ends_with_slash (a +:+ String x b) =
  Package.ends_with_slash (String x b).
Proof.
  induction a as [|y a IH]; [reflexivity|].
  change (String y a +:+ String x b) with (String y (a +:+ String x b)).
  cbn [Package.ends_with_slash].
  destruct (a +:+ String x b) eqn:E; [now destruct a|exact IH].
Qed.

Lemma append_nonempty (a : string) (x : ascii) (b : string) :
  String.eqb (a +:+ String x b) EmptyString = false.
Proof. destruct a; reflexivity. Qed.

(** X17. Where the assets are looked up, for a package directory that
    is not the root: the two hook files in [javascript] under the package
    directory; the scenario script, when [javascript_file] is relative, in
    the [scenarios] directory beside the package, and when it is absolute,
    at that path as it is, the join discarding the directory. *)
Theorem assets_are_resolved_against_the_package_directory
    (here : string) (sc : Package.Scenario) :
  here <> EmptyString ->
  Package.ends_with_slash here = false ->
  Package.audio_hooks_path here =
    here +:+ "/javascript/audio_output_hooks.js" /\
  Package.audio_input_hooks_path here =
    here +:+ "/javascript/audio_input_hooks.js" /\
  Package.js_file_path here sc =
    if String.prefix "/" (Package.javascript_file sc)
    then Package.javascript_file sc
    else here +:+ "/../scenarios/" +:+ Package.javascript_file sc.
Proof.
  intros Hne Hslash. apply String.eqb_neq in Hne.
  unfold Package.audio_hooks_path, Package.audio_input_hooks_path,
    Package.js_file_path, Package.path_join.
  cbn [fold_left]. unfold Package.join2 at 1 3 5.
  change (String.prefix "/" "audio_output_hooks.js") with false.
  change (String.prefix "/" "audio_input_hooks.js") with false.
  destruct (String.prefix "/" (Package.javascript_file sc));
    unfold Package.join2;
    change (String.prefix "/" "javascript") with false;
    change (String.prefix "/" "..") with false;
    change (String.prefix "/" "scenarios") with false;
    rewrite Hne, Hslash; cbn [orb];
    change ("/" +:+ "javascript") with "/javascript";
    change ("/" +:+ "..") with "/..";
    change ("/" +:+ "scenarios") with "/scenarios";
    repeat (rewrite append_nonempty, ends_with_slash_append;
            cbn [Package.ends_with_slash Ascii.eqb Bool.eqb orb]);
    rewrite !string_append_assoc; repeat split; reflexivity.
Qed.

Lemma assets_are_resolved_against_the_package_directory_witness :
  Package.audio_hooks_path pkg_dir =
    "/app/voice_agent_tester/javascript/audio_output_hooks.js" /\
  Package.js_file_path pkg_dir greeting =
    "/app/voice_agent_tester/../scenarios/greeting.js" /\
  Package.js_file_path pkg_dir
    {| Package.name := "probe"; Package.url := page_url;
       Package.javascript_file := "/srv/probes/probe.js";
       Package.steps := [] |} = "/srv/probes/probe.js".
Proof.
  destruct (assets_are_resolved_against_the_package_directory
              pkg_dir greeting ltac:(discriminate) eq_refl)
    as (Hout & _ & Hrel).
  destruct (assets_are_resolved_against_the_package_directory pkg_dir
              {| Package.name := "probe"; Package.url := page_url;
                 Package.javascript_file := "/srv/probes/probe.js";
                 Package.steps := [] |} ltac:(discriminate) eq_refl)
    as (_ & _ & Habs).
  repeat split; assumption.
Defined.

(** ** What a trace can show of the steps, on any run *)

Section QuietParts.
(** [f] reads something off a trace, piece by piece. *)
Context {L X : Type} (f : list (event L) -> list X).
Hypothesis f_app : forall t1 t2, f (t1 ++ t2) = f t1 ++ f t2.

(** A part that shows nothing, in front. *)
Lemma shown_after_quiet_part {A B} (m : M L A) (k : A -> M L B)
    (w : world) (l : list X) :
  (forall w0, f (trace (m w0)) = []) ->
  (forall a w', f (trace (k a w')) `prefix_of` l) ->
  f (trace (bind m k w)) `prefix_of` l.
Proof.
  intros Hm Hk. unfold bind. specialize (Hm w).
  destruct (m w) as [[[a|e] t] w1]; cbn [trace fst snd] in *.
  - specialize (Hk a w1). destruct (k a w1) as [[r t'] w2].
    cbn [trace fst snd] in *. now rewrite f_app, Hm.
  - rewrite Hm. apply prefix_nil.
Qed.

(** A part that shows nothing, behind. *)
Lemma shown_before_quiet_part {A B} (m : M L A) (k : A -> M L B) (w : world) :
  (forall a w0, f (trace (k a w0)) = []) ->
  f (trace (bind m k w)) = f (trace (m w)).
Proof.
  intros Hk. unfold bind.
  destruct (m w) as [[[a|e] t] w1]; cbn [trace fst snd]; [|reflexivity].
  specialize (Hk a w1). destruct (k a w1) as [[r t'] w2].
  cbn [trace fst snd] in *. now rewrite f_app, Hk, app_nil_r.
Qed.

Lemma shown_under_quiet_handler {A} (m : M L A) (h : exn -> M L A) (w : world) :
  (forall e w0, f (trace (h e w0)) = []) ->
  f (trace (try_except m h w)) = f (trace (m w)).
Proof.
  intros Hh. unfold try_except.
  destruct (m w) as [[[a|e] t] w1]; cbn [trace fst snd]; [reflexivity|].
  specialize (Hh e w1). destruct (h e w1) as [[r t'] w2].
  cbn [trace fst snd] in *. now rewrite f_app, Hh, app_nil_r.
Qed.

Lemma shown_before_quiet_finally {A} (m : M L A) (fin : M L unit) (w : world) :
  (forall w0, f (trace (fin w0)) = []) ->
  f (trace (try_finally m fin w)) = f (trace (m w)).
Proof.
  intros Hfin. now rewrite try_finally_trace, f_app, Hfin, app_nil_r.
Qed.
End QuietParts.

(** X18. On every run of a scenario of [src/main.py], whatever raises and
    wherever, the steps that are dispatched are an initial part of the
    numbered step list: in file order, numbered from one, none skipped in
    between and none dispatched twice. *)
Theorem main_scenario_dispatches_an_initial_part_of_its_steps
    (cfg : Main.settings) (js_files : list string) (url : string)
    (steps : list Main.step) (w : world) :
  Main.dispatched
    (trace (Main.run_scenario cfg js_files url steps w))
    `prefix_of` enumerate 1 steps.
Proof.
  unfold Main.run_scenario.
  rewrite (shown_under_quiet_handler Main.dispatched
             MainFacts.dispatched_app) by reflexivity.
  apply (shown_after_quiet_part Main.dispatched MainFacts.dispatched_app);
    [intros w0; now rewrite (proj2 (call_trace _ _))|intros _ w1].
  apply (shown_after_quiet_part Main.dispatched MainFacts.dispatched_app);
    [intros w0; now rewrite (proj2 (call_trace _ _))|intros _ w2].
  apply (shown_after_quiet_part Main.dispatched MainFacts.dispatched_app);
    [intros w0; now destruct (Main.verbose cfg)|intros _ w3].
  apply (shown_after_quiet_part Main.dispatched MainFacts.dispatched_app);
    [intros w0; now rewrite (proj2 (call_trace _ _))|intros _ w4].
  apply (shown_after_quiet_part Main.dispatched MainFacts.dispatched_app);
    [intros w0; apply main_inject_dispatches_nothing|intros _ w5].
  rewrite (shown_before_quiet_part Main.dispatched MainFacts.dispatched_app).
  - apply MainFacts.run_steps_dispatched_prefix.
  - intros _ w0.
    rewrite (shown_before_quiet_part Main.dispatched
               MainFacts.dispatched_app); [reflexivity|].
    intros _ w6. now rewrite (proj2 (call_trace _ _)).
Qed.

Lemma package_dispatched_none (t : list (event Package.log)) :
  Forall (fun ev => forall a v, ev <> Print (Package.ExecutingStep a v)) t ->
  Package.dispatched t = [].
Proof.
  induction 1 as [|ev t Hev _ IH]; [reflexivity|].
  destruct ev as [[]| | | | | | | | | |]; simpl; try exact IH.
  now destruct (Hev action value).
Qed.

Lemma package_asset_dispatches_nothing (fs : string -> option Package.entry)
    (path : string) (announce warning : Package.log) (w : world) :
  (forall a v, announce <> Package.ExecutingStep a v) ->
  (forall a v, warning <> Package.ExecutingStep a v) ->
  Package.dispatched (trace (Package.inject_asset fs path announce warning w))
  = [].
Proof.
  intros Ha Hw. apply package_dispatched_none.
  apply (PackageFacts.inject_asset_emits fs
           (fun ev => forall a v, ev <> Print (Package.ExecutingStep a v))).
  - intros a v [= E]. exact (Ha a v E).
  - intros a v [= E]. exact (Hw a v E).
  - intros s a v. discriminate.
Qed.

(** X19. On every run of a scenario of the package, whatever raises and
    wherever, the steps that are entered are an initial part of the
    scenario's step list: in file order, none skipped in between and none
    entered twice. *)
Theorem package_scenario_enters_an_initial_part_of_its_steps
    (here : string) (fs : string -> option Package.entry)
    (py_int : string -> option Z) (sc : Package.Scenario) (w : world) :
  Package.dispatched (trace (Package.run_scenario here fs py_int sc w))
    `prefix_of` Package.steps sc.
Proof.
  unfold Package.run_scenario.
  apply (shown_after_quiet_part Package.dispatched
           PackageFacts.package_dispatched_app);
    [reflexivity|intros _ w1].
  apply (shown_after_quiet_part Package.dispatched
           PackageFacts.package_dispatched_app);
    [intros w0; now rewrite (proj2 (call_trace _ _))|intros _ w2].
  apply (shown_after_quiet_part Package.dispatched
           PackageFacts.package_dispatched_app);
    [intros w0; now rewrite (proj2 (call_trace _ _))|intros _ w3].
  apply (shown_after_quiet_part Package.dispatched
           PackageFacts.package_dispatched_app);
    [reflexivity|intros _ w4].
  rewrite (shown_before_quiet_finally Package.dispatched
             PackageFacts.package_dispatched_app)
    by (intros w0; now rewrite (proj2 (call_trace _ _))).
  rewrite (shown_under_quiet_handler Package.dispatched
             PackageFacts.package_dispatched_app) by reflexivity.
  unfold Package.scenario_body.
  apply (shown_after_quiet_part Package.dispatched
           PackageFacts.package_dispatched_app);
    [reflexivity|intros _ w5].
  apply (shown_after_quiet_part Package.dispatched
           PackageFacts.package_dispatched_app);
    [intros w0; now rewrite (proj2 (call_trace _ _))|intros _ w6].
  apply (shown_after_quiet_part Package.dispatched
           PackageFacts.package_dispatched_app);
    [intros w0; now apply package_asset_dispatches_nothing|intros _ w7].
  apply (shown_after_quiet_part Package.dispatched
           PackageFacts.package_dispatched_app);
    [intros w0; now apply package_asset_dispatches_nothing|intros _ w8].
  apply (shown_after_quiet_part Package.dispatched
           PackageFacts.package_dispatched_app);
    [intros w0; now apply package_asset_dispatches_nothing|intros _ w9].
  apply PackageFacts.steps_loop_dispatched_prefix.
Qed.

(** ** [src/voice_agent_tester/__main.py]: a run on a browser that never
    raises *)

Lemma steady_try_finally {L A} (m : M L A) (fin : M L unit) :
  steady m -> steady fin -> steady (try_finally m fin).
Proof.
  intros Hm Hfin w Hw. unfold try_finally.
  destruct (Hm w Hw) as [[a Ha] Hw1].
  destruct (m w) as [[r t] w1]. cbn in Ha, Hw1. subst r.
  destruct (Hfin w1 Hw1) as [[[] Hb] Hw2].
  destruct (fin w1) as [[r t'] w2]. cbn in Hb, Hw2. subst r.
  split; [now exists a|exact Hw2].
Qed.

Lemma tame_os_sleep (ms : Z) : tame (Package.os_sleep ms).
Proof.
  intros w Hw. unfold Package.os_sleep.
  destruct (failure (next_outcome w)); now apply never_raises_advance.
Qed.

Lemma tame_read_text (fs : string -> option Package.entry) (path : string) :
  tame (Package.read_text fs path).
Proof.
  intros w Hw. unfold Package.read_text.
  now destruct (fs path) as [[content|e]|].
Qed.

Lemma tame_inject_asset (fs : string -> option Package.entry) (path : string)
    (announce warning : Package.log) :
  tame (Package.inject_asset fs path announce warning).
Proof.
  unfold Package.inject_asset.
  destruct (Package.path_exists fs path); [|apply tame_print].
  apply tame_bind; [apply tame_read_text|intros content].
  auto with tame.
Qed.

Lemma package_run_step_tame (py_int : string -> option Z) (st : Package.Step) :
  tame (Package.run_step py_int st).
Proof.
  unfold Package.run_step, Package.int_of, Package.time_sleep.
  apply tame_bind; [apply tame_print|intros _].
  destruct (String.eqb (Package.action st) "wait");
    [|destruct (String.eqb (Package.action st) "say"); apply tame_print].
  apply tame_bind.
  - destruct (Package.value st) as [s|n]; [destruct (py_int s)|];
      auto with tame.
  - intros secs.
    destruct ((secs <? - Package.sleep_limit) || (Package.sleep_limit <? secs));
      [auto with tame|].
    destruct (secs <? 0); [auto with tame|apply tame_os_sleep].
Qed.

Lemma package_scenario_steady
    (here : string) (fs : string -> option Package.entry)
    (py_int : string -> option Z) (sc : Package.Scenario) :
  steady (Package.run_scenario here fs py_int sc).
Proof.
  unfold Package.run_scenario.
  repeat (apply steady_bind; [auto with steady|intros _]).
  apply steady_try_finally; [|apply steady_call].
  apply steady_try_except; [|intros e; apply steady_print].
  unfold Package.scenario_body.
  repeat (apply tame_bind; [|intros _]);
    try apply tame_inject_asset; auto with tame.
  apply tame_for_each, package_run_step_tame.
Qed.

Lemma package_guarded_body_launches_nothing
    (here : string) (fs : string -> option Package.entry)
    (py_int : string -> option Z) (sc : Package.Scenario) :
  emits_only (fun e => is_launch e = false)
    (try_except (Package.scenario_body here fs py_int sc)
       (fun e => print (Package.ScenarioError e))).
Proof.
  apply emits_only_try_except; [|intros e; now apply emits_only_print].
  unfold Package.scenario_body.
  repeat first
    [ apply emits_only_bind; [|intros ?]
    | solve [now apply PackageFacts.inject_asset_emits]
    | solve [auto with emits] ].
  intros w. eapply Forall_impl; [apply PackageFacts.steps_loop_offline|].
  now intros [].
Qed.

(** On a browser that never raises, one scenario: it returns, leaves the
    browser as quiet as it found it, and has launched and closed once. *)
Lemma package_quiet_scenario
    (here : string) (fs : string -> option Package.entry)
    (py_int : string -> option Z) (sc : Package.Scenario) (w : world) :
  never_raises w ->
  let r := Package.run_scenario here fs py_int sc w in
  outcome_of r = Ok tt /\
  never_raises (final r) /\
  launches (trace r) = 1%nat /\
  closes (trace r) = 1%nat.
Proof.
  intros Hw r.
  destruct (package_scenario_steady here fs py_int sc w Hw) as [[[] Hok] Hw'].
  pose proof (never_raises_next w Hw) as Hlaunch.
  pose proof (never_raises_next _
                (never_raises_advance w (Z.of_N (took (next_outcome w))) Hw))
    as Hpage.
  repeat split; try assumption.
  - subst r.
    rewrite (PackageFacts.run_scenario_with_session here fs py_int sc w
               Hlaunch Hpage).
    rewrite !launches_app.
    now rewrite (launches_none _
                   (package_guarded_body_launches_nothing here fs py_int sc _)).
  - exact (PackageFacts.run_scenario_closes_once here fs py_int sc w
             Hlaunch Hpage).
Qed.

Lemma package_quiet_scenarios
    (here : string) (fs : string -> option Package.entry)
    (py_int : string -> option Z) (scs : list Package.Scenario) (w : world) :
  never_raises w ->
  let r := for_each scs (Package.run_scenario here fs py_int) w in
  outcome_of r = Ok tt /\
  never_raises (final r) /\
  launches (trace r) = length scs /\
  closes (trace r) = length scs.
Proof.
  revert w. induction scs as [|sc scs IH]; intros w Hw; [now repeat split|].
  destruct (package_quiet_scenario here fs py_int sc w Hw)
    as (Hok & Hw1 & Hl & Hc).
  cbv zeta. simpl for_each.
  destruct (Package.run_scenario here fs py_int sc w) as [[r1 t1] w1] eqn:E1.
  cbn [outcome_of trace final fst snd] in Hok, Hw1, Hl, Hc. subst r1.
  rewrite (bind_ok _ _ _ _ _ _ E1).
  destruct (IH w1 Hw1) as (Hok' & Hw2 & Hl' & Hc').
  cbn [outcome_of trace final fst snd] in *.
  repeat split; try assumption.
  - rewrite launches_app, Hl, Hl'. reflexivity.
  - rewrite closes_app, Hc, Hc'. reflexivity.
Qed.



(** X21. A say step of the package is a placeholder: it prints the step
    and the text it would say, touches neither the browser nor the clock,
    and the loop goes on with the steps after it. *)
Theorem package_say_only_prints
    (py_int : string -> option Z) (st : Package.Step)
    (rest : list Package.Step) (w : world) :
  Package.action st = "say" ->
  Package.run_step py_int st w =
    (Ok tt,
     [Print (Package.ExecutingStep "say" (Package.value st));
      Print (Package.SimulatingVoiceInput (Package.value st))],
     w) /\
  for_each (st :: rest) (Package.run_step py_int) w =
    (outcome_of (for_each rest (Package.run_step py_int) w),
     [Print (Package.ExecutingStep "say" (Package.value st));
      Print (Package.SimulatingVoiceInput (Package.value st))]
       ++ trace (for_each rest (Package.run_step py_int) w),
     final (for_each rest (Package.run_step py_int) w)).
Proof.
  intros Hact.
  pose proof (PackageFacts.run_step_say py_int st w Hact) as E.
  rewrite Hact in E. split; [exact E|].
  exact (PackageFacts.steps_loop_cons_ok py_int st rest w w _ E).
Qed.

Lemma package_say_only_prints_witness :
  Package.run_step sample_int pkg_say (starting [raises timeout 5]) =
    (Ok tt,
     [Print (Package.ExecutingStep "say" (Package.Str "hello"));
      Print (Package.SimulatingVoiceInput (Package.Str "hello"))],
     starting [raises timeout 5]).
Proof.
  destruct (package_say_only_prints sample_int pkg_say []
              (starting [raises timeout 5]) eq_refl) as [E _].
  exact E.
Defined.
